(** * smb2mv: server-side move on SMB2/CIFS shares

    A shallow embedding of [smb2mv.c] and the properties of its
    clone-then-unlink protocol.

    The program is a straight line of system calls with goto-style cleanup.
    It is embedded as state-passing code over
    - an abstract operating system (the class [Kernel]) that answers each
      system call and owns the file system,
    - the C library's [errno],
    - a log of the system calls made, with their answers, interleaved with
      the lines written to standard error.

    Every theorem about the program quantifies over the kernel, so it holds
    for every execution.  A small reference kernel with an in-memory file
    system ([Module Ref]) runs the program on concrete inputs. *)

From stdpp Require Import base strings list gmap.
From Stdlib Require Import ZArith Lia.

Local Open Scope Z_scope.

(** ** What the system headers and the C library provide

    [smb2mv.c] takes these from [<fcntl.h>], [<sys/stat.h>], [<errno.h>],
    [<sys/ioctl.h>], [<libgen.h>] and [<string.h>]; none of them is defined
    in the repository, so the program is embedded over any choice of them.

    [basename] is the one of [<libgen.h>], which may rewrite the buffer it is
    given: it returns the final component and the buffer's text after the
    call.  [strerror] is what the [%m] conversion of [fprintf] prints for a
    value of [errno]. *)
Class Platform := {
  O_RDWR : Z;
  O_WRONLY : Z;
  O_CREAT : Z;
  S_IFMT : Z;
  S_IFDIR : Z;
  ENOENT : Z;
  _IOW : Z → Z → Z → Z;
  basename : string → string * string;
  strerror : Z → string
}.

(** ** The operating system *)

(** The answer to a system call: its value, or the error number the C
    library stores in [errno] before it hands -1 to the caller. *)
Inductive result (A : Type) : Type :=
| Ok (a : A)
| Err (e : Z).
Arguments Ok {A} a.
Arguments Err {A} e.

(** One handler per system call of the program.  [W] is the state of the
    world outside the process (file system, descriptor table, ...).
    A successful [open] yields a descriptor, which is never negative;
    [stat] yields [st_mode]; [fstatfs] yields [f_type] ([__fsword_t], a
    64-bit [long] on LP64, where the two 32-bit magic constants compare by
    value); [ioctl] yields the request's return value.  [k_alloc n] tells
    whether the C library obtains [n] bytes for [strdup] or [vasprintf].
    [k_after_free text] is the text a [%s] conversion reads through a
    pointer to a buffer that held [text] and has been freed: whatever the
    allocator and later allocations left there. *)
Class Kernel (W : Type) := {
  k_open : string → Z → option Z → W → result N * W;
  k_stat : string → W → result Z * W;
  k_fstatfs : Z → W → result Z * W;
  k_ioctl : Z → Z → Z → W → result Z * W;
  k_unlink : string → W → result unit * W;
  k_close : Z → W → result unit * W;
  k_alloc : Z → W → bool * W;
  k_after_free : string → W → string
}.

Inductive syscall : Type :=
| SysOpen (path : string) (flags : Z) (mode : option Z)
| SysStat (path : string)
| SysFstatfs (fd : Z)
| SysIoctl (fd request arg : Z)
| SysUnlink (path : string)
| SysClose (fd : Z).

(** What an observer of the process sees, in order. *)
Inductive event : Type :=
| EvSys (c : syscall) (r : result Z)
| EvStderr (text : string).

Global Instance result_eq_dec `{EqDecision A} : EqDecision (result A).
Proof. solve_decision. Defined.
Global Instance syscall_eq_dec : EqDecision syscall.
Proof. solve_decision. Defined.
Global Instance event_eq_dec : EqDecision event.
Proof. solve_decision. Defined.

(** The kind of an event, for statements about which calls a run makes. *)
Inductive kind : Type :=
| KOpen | KStat | KFstatfs | KIoctl | KUnlink | KClose | KStderr.

Global Instance kind_eq_dec : EqDecision kind.
Proof. solve_decision. Defined.

Definition kind_of (ev : event) : kind :=
  match ev with
  | EvSys (SysOpen _ _ _) _ => KOpen
  | EvSys (SysStat _) _ => KStat
  | EvSys (SysFstatfs _) _ => KFstatfs
  | EvSys (SysIoctl _ _ _) _ => KIoctl
  | EvSys (SysUnlink _) _ => KUnlink
  | EvSys (SysClose _) _ => KClose
  | EvStderr _ => KStderr
  end.

(** All events of [evs] are of the kinds [ks]. *)
Definition only (ks : list kind) (evs : list event) : Prop :=
  Forall (λ ev, kind_of ev ∈ ks) evs.

(** No event of [evs] is of the kind [k]. *)
Definition never (k : kind) (evs : list event) : Prop :=
  Forall (λ ev, kind_of ev ≠ k) evs.

(** ** Process state and the monad of the embedding *)

Record state (W : Type) : Type := State {
  world : W;
  errno : Z;
  log : list event
}.
Arguments State {W} world errno log.
Arguments world {W} s.
Arguments errno {W} s.
Arguments log {W} s.

(** A computation returns a value, or [None] when the process was killed by
    [abort()]. *)
Definition M (W A : Type) : Type := state W → option A * state W.

Global Instance M_ret {W} : MRet (M W) := λ A a s, (Some a, s).
Global Instance M_bind {W} : MBind (M W) := λ A B k m s,
  match m s with
  | (Some a, s') => k a s'
  | (None, s') => (None, s')
  end.

Definition abort {W A} : M W A := λ s, (None, s).
Definition get_errno {W} : M W Z := λ s, (Some (errno s), s).
Definition emit {W} (e : event) : M W unit := λ s,
  (Some (), State (world s) (errno s) (log s ++ [e])).

(** [fprintf(stderr, ...)], given the text after formatting. *)
Definition fprintf_stderr {W} (text : string) : M W unit := emit (EvStderr text).

Definition init {W} (w : W) : state W := State w 0 [].

(** The line feed that ends every diagnostic. *)
Definition LF : string := String (Ascii.ascii_of_nat 10) EmptyString.

Section Program.
Context `{Platform} {W : Type} `{Kernel W}.

Local Abbreviation M := (M W).

(** *** The C library's system call wrappers

    A wrapper asks the kernel, logs call and answer, and on failure stores
    the error number in [errno]; [errno] is left alone on success. *)
Definition syscall_wrapper {A} (c : syscall) (h : W → result A * W)
    (val : A → Z) : M (result A) := λ s,
  let '(r, w) := h (world s) in
  match r with
  | Ok a => (Some r, State w (errno s) (log s ++ [EvSys c (Ok (val a))]))
  | Err e => (Some r, State w e (log s ++ [EvSys c (Err e)]))
  end.

(** The integer a wrapper of a 0-or-(-1) call returns. *)
Definition c_int {A} (val : A → Z) (r : result A) : Z :=
  match r with Ok a => val a | Err _ => -1 end.

Definition open (path : string) (flags : Z) (mode : option Z) : M Z :=
  r ← syscall_wrapper (SysOpen path flags mode) (k_open path flags mode) Z.of_N;
  mret (c_int Z.of_N r).

(** [stat(path, &st)]: the return value and [st.st_mode].  On failure the
    struct is not written; the embedding gives 0 for the field, which the
    program does not read in that case. *)
Definition stat (path : string) : M (Z * Z) :=
  r ← syscall_wrapper (SysStat path) (k_stat path) id;
  mret (match r with Ok st_mode => (0, st_mode) | Err _ => (-1, 0) end).

(** [fstatfs(fd, &sfs)]: the return value and [sfs.f_type]. *)
Definition fstatfs (fd : Z) : M (Z * Z) :=
  r ← syscall_wrapper (SysFstatfs fd) (k_fstatfs fd) id;
  mret (match r with Ok f_type => (0, f_type) | Err _ => (-1, 0) end).

Definition ioctl (fd request arg : Z) : M Z :=
  r ← syscall_wrapper (SysIoctl fd request arg) (k_ioctl fd request arg) id;
  mret (c_int id r).

Definition unlink (path : string) : M Z :=
  r ← syscall_wrapper (SysUnlink path) (k_unlink path) (λ _, 0);
  mret (c_int (λ _, 0) r).

Definition close (fd : Z) : M Z :=
  r ← syscall_wrapper (SysClose fd) (k_close fd) (λ _, 0);
  mret (c_int (λ _, 0) r).

(** Whether the C library can allocate [n] bytes. *)
Definition alloc (n : Z) : M bool := λ s,
  let '(ok, w) := k_alloc n (world s) in
  (Some ok, State w (errno s) (log s)).

(** [free] returns memory; nothing the program observes changes. *)
Definition free (p : option string) : M unit := mret ().

(** Reading, as a string, a buffer that held [text] and has been freed. *)
Definition dangling (text : string) : M string := λ s,
  (Some (k_after_free text (world s)), s).

(** *** smb2mv.c *)

Definition CIFS_SUPER_MAGIC : Z := 0xFF534D42.
Definition SMB2_SUPER_MAGIC : Z := 0xFE534D42.
Definition CIFS_IOCTL_MAGIC : Z := 0xCF.
Definition sizeof_int : Z := 4.
Definition CIFS_IOC_COPYCHUNK_FILE : Z := _IOW CIFS_IOCTL_MAGIC 3 sizeof_int.

(** The octal literal [0644]. *)
Definition mode_0644 : Z := 6 * 64 + 4 * 8 + 4.

(** [xasprintf(&strp, fmt, ...)], given the formatted text: the text is
    placed in fresh memory, or the process aborts. *)
Definition xasprintf (text : string) : M string :=
  ok ← alloc (Z.of_nat (String.length text) + 1);
  if ok : bool then mret text
  else fprintf_stderr ("out of memory!" +:+ LF);; abort.

Definition xstrdup (s : string) : M string :=
  ok ← alloc (Z.of_nat (String.length s) + 1);
  if ok : bool then mret s
  else fprintf_stderr ("out of memory!" +:+ LF);; abort.

Definition clone_file_cifs (src_fd dst_fd : Z) : M Z :=
  ret ← ioctl dst_fd CIFS_IOC_COPYCHUNK_FILE src_fd;
  if negb (ret =? 0) then
    e ← get_errno;
    fprintf_stderr ("server-side-copy failed: " +:+ strerror e +:+ LF);;
    mret (-1)
  else mret ret.

Definition is_cifs_type (f_type : Z) : bool :=
  negb (negb (f_type =? CIFS_SUPER_MAGIC) && negb (f_type =? SMB2_SUPER_MAGIC)).

Definition check_is_cifs (src_fd dest_fd : Z) : M bool :=
  '(ret, f_type) ← fstatfs src_fd;
  if ret =? -1 then
    e ← get_errno;
    fprintf_stderr ("failed to stat source file system: " +:+ strerror e +:+ LF);;
    mret false
  else if negb (f_type =? CIFS_SUPER_MAGIC) && negb (f_type =? SMB2_SUPER_MAGIC) then
    fprintf_stderr ("source file system is not CIFS/SMB2!" +:+ LF);;
    mret false
  else
    '(ret, f_type) ← fstatfs dest_fd;
    if negb (ret =? 0) then
      e ← get_errno;
      fprintf_stderr ("failed to stat destination file system: " +:+ strerror e +:+ LF);;
      mret false
    else if negb (f_type =? CIFS_SUPER_MAGIC) && negb (f_type =? SMB2_SUPER_MAGIC) then
      fprintf_stderr ("destination file system is not CIFS/SMB2!" +:+ LF);;
      mret false
    else mret true.

(** The [fprintf] both failure paths of the [ret == -1] branch of
    [open_dest] fall into, followed by [out: return ret]. *)
Definition failed_to_create (dst : string) (ret : Z) : M Z :=
  e ← get_errno;
  fprintf_stderr ("failed to create " +:+ dst +:+ ": " +:+ strerror e +:+ LF);;
  mret ret.

(** [open_dest(src, dst)].  [src] is handed to [basename], which may rewrite
    it; the function returns [ret] together with the text [src] holds when
    it returns.  In the directory branch the message names [new_dst] after
    [free(new_dst)]: what it prints for [%s] is read from freed memory. *)
Definition open_dest (src dst : string) : M (Z * string) :=
  '(ret, st_mode) ← stat dst;
  if ret =? -1 then
    e ← get_errno;
    if e =? ENOENT then
      ret ← open dst (Z.lor O_CREAT O_WRONLY) (Some mode_0644);
      if negb (ret =? -1) then mret (ret, src)
      else ret ← failed_to_create dst ret; mret (ret, src)
    else ret ← failed_to_create dst ret; mret (ret, src)
  else if Z.land st_mode S_IFMT =? S_IFDIR then
    let '(fname, src) := basename src in
    new_dst ← xasprintf (dst +:+ "/" +:+ fname);
    ret ← open new_dst (Z.lor O_CREAT O_WRONLY) (Some mode_0644);
    free (Some new_dst);;
    (if ret =? -1 then
       e ← get_errno;
       freed ← dangling new_dst;
       fprintf_stderr ("failed to create " +:+ freed +:+ ": " +:+ strerror e +:+ LF)
     else mret ());;
    mret (ret, src)
  else
    fprintf_stderr ("refusing to overwrite " +:+ dst +:+ LF);;
    mret (-1, src).

(** [argv[i]] as [fprintf]'s [%s] and [strdup] see it; glibc prints a null
    pointer as [(null)]. *)
Definition arg (argv : list string) (i : nat) : string :=
  nth i argv "(null)"%string.

(** The cleanup labels of [main], each a function of the variables live at
    the label. *)
Definition err_out (src_file dst_file : option string) (ret : Z) : M Z :=
  free src_file;;
  free dst_file;;
  mret ret.

Definition err_src_close (src_file dst_file : option string) (src_fd : Z)
    (ret : Z) : M Z :=
  c ← close src_fd;
  ret ← (if negb (c =? 0) then
           e ← get_errno;
           fprintf_stderr ("failed to close src file: " +:+ strerror e +:+ LF);;
           mret 1
         else mret ret);
  err_out src_file dst_file ret.

Definition err_dst_close (src_file dst_file : option string) (src_fd dst_fd : Z)
    (ret : Z) : M Z :=
  c ← close dst_fd;
  ret ← (if negb (c =? 0) then
           e ← get_errno;
           fprintf_stderr ("failed to close dst file: " +:+ strerror e +:+ LF);;
           mret 1
         else mret ret);
  err_src_close src_file dst_file src_fd ret.

(** [main(argc, argv)].  The local [ret] is declared without an initialiser;
    [ret0] is the indeterminate value it holds until the first assignment.
    The process is started with [argc] the length of [argv]; the program
    does no arithmetic on its [int]s, it only compares them. *)
Definition main (ret0 : Z) (argc : Z) (argv : list string) : M Z :=
  let ret := ret0 in
  if negb (argc =? 3) then
    fprintf_stderr ("Usage: " +:+ arg argv 0 +:+ (" SRC DST" +:+ LF));;
    err_out None None ret
  else
    src_file ← xstrdup (arg argv 1);
    dst_file ← xstrdup (arg argv 2);
    src_fd ← open src_file O_RDWR None;
    if src_fd =? -1 then
      e ← get_errno;
      fprintf_stderr ("failed to open " +:+ src_file +:+ ": " +:+ strerror e +:+ LF);;
      err_out (Some src_file) (Some dst_file) 1
    else
      '(dst_fd, src_file) ← open_dest src_file dst_file;
      if dst_fd =? -1 then
        err_src_close (Some src_file) (Some dst_file) src_fd 1
      else
        is_cifs ← check_is_cifs src_fd dst_fd;
        if negb is_cifs then
          err_dst_close (Some src_file) (Some dst_file) src_fd dst_fd 1
        else
          cloned ← clone_file_cifs src_fd dst_fd;
          if negb (cloned =? 0) then
            err_dst_close (Some src_file) (Some dst_file) src_fd dst_fd 1
          else
            removed ← unlink src_file;
            if removed =? -1 then
              e ← get_errno;
              fprintf_stderr ("unable to remove source file: " +:+ strerror e +:+ LF);;
              err_dst_close (Some src_file) (Some dst_file) src_fd dst_fd ret
            else
              err_dst_close (Some src_file) (Some dst_file) src_fd dst_fd 0.

End Program.

(** ** A reference platform and kernel

    Linux on x86-64 with glibc, and a kernel with an in-memory file system.
    They instantiate [Platform] and [Kernel] so that the program runs on
    concrete inputs; the theorems about the program do not depend on them. *)
Module Ref.

Definition EPERM : Z := 1.
Definition EIO : Z := 5.
Definition EBADF : Z := 9.
Definition EACCES : Z := 13.
Definition EISDIR : Z := 21.
Definition ENOTTY : Z := 25.
Definition S_IFREG : Z := 0x8000.
Definition S_IWUSR : Z := 0x80.
Definition EXT4_SUPER_MAGIC : Z := 0xEF53.

Definition slash : Ascii.ascii := Ascii.ascii_of_nat 47.

Fixpoint has_slash (s : string) : bool :=
  match s with
  | EmptyString => false
  | String c r => Ascii.eqb c slash || has_slash r
  end.

(** The text without its trailing slashes. *)
Fixpoint strip_slashes (s : string) : string :=
  match s with
  | EmptyString => EmptyString
  | String c r =>
      match strip_slashes r with
      | EmptyString => if Ascii.eqb c slash then EmptyString else String c EmptyString
      | r' => String c r'
      end
  end.

(** The text after the last slash. *)
Fixpoint last_component (s : string) : string :=
  match s with
  | EmptyString => EmptyString
  | String c r =>
      if has_slash r then last_component r
      else if Ascii.eqb c slash then r else s
  end.

(** glibc's [__xpg_basename]: trailing slashes are cut off in place, unless
    the path consists of slashes only. *)
Definition xpg_basename (path : string) : string * string :=
  match path with
  | EmptyString => ("."%string, path)
  | _ =>
      match strip_slashes path with
      | EmptyString => ("/"%string, path)
      | p => (last_component p, p)
      end
  end.

Definition linux_strerror (e : Z) : string :=
  if e =? EPERM then "Operation not permitted"
  else if e =? 2 then "No such file or directory"
  else if e =? EIO then "Input/output error"
  else if e =? EBADF then "Bad file descriptor"
  else if e =? EACCES then "Permission denied"
  else if e =? EISDIR then "Is a directory"
  else if e =? ENOTTY then "Inappropriate ioctl for device"
  else "Unknown error".

Global Instance linux : Platform := {|
  O_RDWR := 2;
  O_WRONLY := 1;
  O_CREAT := 0x40;
  S_IFMT := 0xF000;
  S_IFDIR := 0x4000;
  ENOENT := 2;
  _IOW := λ type nr size,
    Z.lor (Z.lor (Z.lor (Z.shiftl 1 30) (Z.shiftl size 16)) (Z.shiftl type 8)) nr;
  basename := xpg_basename;
  strerror := linux_strerror
|}.

Record node : Type := Node {
  n_mode : Z;
  n_data : string
}.

(** [fds] maps an open descriptor to the path it was opened at; [mounts]
    gives the file system type below a path prefix (first match, ext4
    elsewhere); [faults] lists calls that are made to fail, with the error
    number; [memory] tells whether allocations succeed. *)
Record world : Type := World {
  files : gmap string node;
  fds : gmap N string;
  mounts : list (string * Z);
  faults : list (syscall * Z);
  memory : bool
}.

Definition set_files (f : gmap string node) (w : world) : world :=
  World f (fds w) (mounts w) (faults w) (memory w).
Definition set_fds (d : gmap N string) (w : world) : world :=
  World (files w) d (mounts w) (faults w) (memory w).

Fixpoint fs_type (ms : list (string * Z)) (path : string) : Z :=
  match ms with
  | [] => EXT4_SUPER_MAGIC
  | (p, t) :: ms' => if String.prefix p path then t else fs_type ms' path
  end.

Fixpoint fault (fs : list (syscall * Z)) (c : syscall) : option Z :=
  match fs with
  | [] => None
  | (c', e) :: fs' => if decide (c' = c) then Some e else fault fs' c
  end.

Fixpoint first_free (d : gmap N string) (fuel : nat) (n : N) : N :=
  match fuel with
  | O => n
  | S k => match d !! n with
           | None => n
           | Some _ => first_free d k (N.succ n)
           end
  end.

(** The lowest free descriptor above the three standard streams. *)
Definition next_fd (w : world) : N := first_free (fds w) (size (fds w)) 3.

Definition fd_path (w : world) (fd : Z) : option string :=
  if fd <? 0 then None else fds w !! Z.to_N fd.

Definition wants_write (flags : Z) : bool := negb (Z.land flags 3 =? 0).

Definition is_dir (nd : node) : bool := Z.land (n_mode nd) 0xF000 =? 0x4000.

Definition install_fd (path : string) (w : world) : result N * world :=
  let fd := next_fd w in (Ok fd, set_fds (<[fd := path]> (fds w)) w).

(** [open]: an existing file is opened as it is (the program never passes
    [O_TRUNC]); a missing one is created empty when [O_CREAT] is given.
    Directories along the path are not checked. *)
Definition ref_open (path : string) (flags : Z) (mode : option Z) (w : world)
    : result N * world :=
  match fault (faults w) (SysOpen path flags mode) with
  | Some e => (Err e, w)
  | None =>
      match files w !! path with
      | Some nd =>
          if is_dir nd && wants_write flags then (Err EISDIR, w)
          else if wants_write flags && (Z.land (n_mode nd) S_IWUSR =? 0)
          then (Err EACCES, w)
          else install_fd path w
      | None =>
          if Z.land flags 0x40 =? 0 then (Err 2, w)
          else
            let nd := Node (Z.lor S_IFREG (default 0 mode)) "" in
            install_fd path (set_files (<[path := nd]> (files w)) w)
      end
  end.

Definition ref_stat (path : string) (w : world) : result Z * world :=
  match fault (faults w) (SysStat path) with
  | Some e => (Err e, w)
  | None =>
      match files w !! path with
      | Some nd => (Ok (n_mode nd), w)
      | None => (Err 2, w)
      end
  end.

Definition ref_fstatfs (fd : Z) (w : world) : result Z * world :=
  match fault (faults w) (SysFstatfs fd) with
  | Some e => (Err e, w)
  | None =>
      match fd_path w fd with
      | Some path => (Ok (fs_type (mounts w) path), w)
      | None => (Err EBADF, w)
      end
  end.

(** The copy-chunk request replaces the data of the file open at [fd] by
    the data of the file open at [arg], on SMB file systems only. *)
Definition ref_ioctl (fd request arg : Z) (w : world) : result Z * world :=
  match fault (faults w) (SysIoctl fd request arg) with
  | Some e => (Err e, w)
  | None =>
      match fd_path w fd, fd_path w arg with
      | Some dst, Some src =>
          if (request =? CIFS_IOC_COPYCHUNK_FILE)
             && is_cifs_type (fs_type (mounts w) dst)
             && is_cifs_type (fs_type (mounts w) src)
          then
            match files w !! src with
            | Some nd =>
                (Ok 0, set_files (alter (λ d, Node (n_mode d) (n_data nd)) dst (files w)) w)
            | None => (Err EBADF, w)
            end
          else (Err ENOTTY, w)
      | _, _ => (Err EBADF, w)
      end
  end.

Definition ref_unlink (path : string) (w : world) : result unit * world :=
  match fault (faults w) (SysUnlink path) with
  | Some e => (Err e, w)
  | None =>
      match files w !! path with
      | Some nd =>
          if is_dir nd then (Err EISDIR, w)
          else (Ok (), set_files (delete path (files w)) w)
      | None => (Err 2, w)
      end
  end.

(** [close] releases the descriptor even when it reports an error. *)
Definition ref_close (fd : Z) (w : world) : result unit * world :=
  match fd_path w fd with
  | None => (Err EBADF, w)
  | Some _ =>
      let w' := set_fds (delete (Z.to_N fd) (fds w)) w in
      match fault (faults w) (SysClose fd) with
      | Some e => (Err e, w')
      | None => (Ok (), w')
      end
  end.

Definition ref_alloc (n : Z) (w : world) : bool * world := (memory w, w).

(** The reference allocator wipes a buffer when it is freed. *)
Definition ref_after_free (text : string) (w : world) : string := "".

Global Instance kernel : Kernel world := {|
  k_open := ref_open;
  k_stat := ref_stat;
  k_fstatfs := ref_fstatfs;
  k_ioctl := ref_ioctl;
  k_unlink := ref_unlink;
  k_close := ref_close;
  k_alloc := ref_alloc;
  k_after_free := ref_after_free
|}.

(** A share mounted at [/mnt/smb] holding a file, a read-only file and a
    directory, and a local directory on ext4. *)
Definition share : world := {|
  files := list_to_map [
    ("/mnt/smb/a.txt"%string, Node (Z.lor S_IFREG 0x1A4) "hello");
    ("/mnt/smb/ro.txt"%string, Node (Z.lor S_IFREG 0x124) "fixed");
    ("/mnt/smb/b.txt"%string, Node (Z.lor S_IFREG 0x1A4) "old");
    ("/mnt/smb/dir"%string, Node (Z.lor 0x4000 0x1ED) "");
    ("/home/u"%string, Node (Z.lor 0x4000 0x1ED) "")
  ];
  fds := ∅;
  mounts := [("/mnt/smb/"%string, CIFS_SUPER_MAGIC)];
  faults := [];
  memory := true
|}.

Definition with_faults (fs : list (syscall * Z)) (w : world) : world :=
  World (files w) (fds w) (mounts w) fs (memory w).

(** Inputs on which the program is run below. *)
Definition argv_move : list string :=
  ["smb2mv"; "/mnt/smb/a.txt"; "/mnt/smb/c.txt"]%string.
Definition argv_overwrite : list string :=
  ["smb2mv"; "/mnt/smb/a.txt"; "/mnt/smb/b.txt"]%string.
Definition argv_local : list string :=
  ["smb2mv"; "/mnt/smb/a.txt"; "/home/u/c.txt"]%string.
Definition argv_readonly : list string :=
  ["smb2mv"; "/mnt/smb/ro.txt"; "/mnt/smb/c.txt"]%string.

(** The share with an unlink of [a.txt] that is denied. *)
Definition unlink_denied : world :=
  with_faults [(SysUnlink "/mnt/smb/a.txt", EACCES)] share.

(** The share with the descriptors 3 and 4 open on it. *)
Definition two_open : world :=
  set_fds (<[3%N := "/mnt/smb/a.txt"%string]> (<[4%N := "/mnt/smb/b.txt"%string]> ∅)) share.

Definition run_move : option Z * state world :=
  Eval vm_compute in main 0 3 argv_move (init share).
Definition run_overwrite : option Z * state world :=
  Eval vm_compute in main 0 3 argv_overwrite (init share).
Definition run_local : option Z * state world :=
  Eval vm_compute in main 0 3 argv_local (init share).
Definition run_unlink_denied : option Z * state world :=
  Eval vm_compute in main 0 3 argv_move (init unlink_denied).


(** More inputs: no memory left; a close of the destination that fails; a
    file inside the directory it is moved to; descriptor 3 open on ext4. *)
Definition no_memory : world :=
  World (files share) (fds share) (mounts share) (faults share) false.

Definition close_fails : world := with_faults [(SysClose 4, EIO)] share.

Definition nested : world :=
  set_files (<["/mnt/smb/dir/a.txt"%string := Node (Z.lor S_IFREG 0x1A4) "deep"]>
               (files share)) share.

Definition argv_own_dir : list string :=
  ["smb2mv"; "/mnt/smb/dir/a.txt"; "/mnt/smb/dir"]%string.

Definition local_open : world :=
  set_fds (<[3%N := "/home/u"%string]> (<[4%N := "/mnt/smb/b.txt"%string]> ∅)) share.

Definition run_no_memory : option Z * state world :=
  Eval vm_compute in main 0 3 argv_move (init no_memory).
Definition run_close_fails : option Z * state world :=
  Eval vm_compute in main 0 3 argv_move (init close_fails).
Definition run_own_dir : option Z * state world :=
  Eval vm_compute in main 0 3 argv_own_dir (init nested).
Definition run_move_7 : option Z * state world :=
  Eval vm_compute in main 7 3 argv_move (init share).

Definition run_clone : option Z * state world :=
  Eval vm_compute in clone_file_cifs 3 4 (init two_open).
Definition run_dest_missing : option (Z * string) * state world :=
  Eval vm_compute in open_dest "/mnt/smb/a.txt" "/mnt/smb/c.txt" (init share).
Definition run_dest_dir : option (Z * string) * state world :=
  Eval vm_compute in open_dest "/mnt/smb/a.txt" "/mnt/smb/dir" (init share).
Definition run_unlink_denied_5 : option Z * state world :=
  Eval vm_compute in main 5 3 argv_move (init unlink_denied).

End Ref.

(** ** The traces of the program

    What each function of [smb2mv.c] can be seen to do: the value it returns
    ([None] for a process killed by [abort()]) and the events it adds to the
    log.  The relations are proved below to cover every run of the embedded
    functions; the theorems about logs are then proved by inversion. *)
Section Traces.
Context `{Platform}.

Definition out_of_memory : event := EvStderr ("out of memory!" +:+ LF).

Inductive open_dest_trace (src dst : string) : option (Z * string) → list event → Prop :=
| od_created (fd : N) :
    open_dest_trace src dst (Some (Z.of_N fd, src))
      [EvSys (SysStat dst) (Err ENOENT);
       EvSys (SysOpen dst (Z.lor O_CREAT O_WRONLY) (Some mode_0644)) (Ok (Z.of_N fd))]
| od_create_failed (e : Z) :
    open_dest_trace src dst (Some (-1, src))
      [EvSys (SysStat dst) (Err ENOENT);
       EvSys (SysOpen dst (Z.lor O_CREAT O_WRONLY) (Some mode_0644)) (Err e);
       EvStderr ("failed to create " +:+ dst +:+ ": " +:+ strerror e +:+ LF)]
| od_stat_failed (e : Z) :
    e ≠ ENOENT →
    open_dest_trace src dst (Some (-1, src))
      [EvSys (SysStat dst) (Err e);
       EvStderr ("failed to create " +:+ dst +:+ ": " +:+ strerror e +:+ LF)]
| od_refused (st_mode : Z) :
    Z.land st_mode S_IFMT ≠ S_IFDIR →
    open_dest_trace src dst (Some (-1, src))
      [EvSys (SysStat dst) (Ok st_mode);
       EvStderr ("refusing to overwrite " +:+ dst +:+ LF)]
| od_dir_oom (st_mode : Z) :
    Z.land st_mode S_IFMT = S_IFDIR →
    open_dest_trace src dst None
      [EvSys (SysStat dst) (Ok st_mode); out_of_memory]
| od_dir_opened (st_mode : Z) (fd : N) :
    Z.land st_mode S_IFMT = S_IFDIR →
    open_dest_trace src dst (Some (Z.of_N fd, (basename src).2))
      [EvSys (SysStat dst) (Ok st_mode);
       EvSys (SysOpen (dst +:+ "/" +:+ (basename src).1) (Z.lor O_CREAT O_WRONLY)
                (Some mode_0644)) (Ok (Z.of_N fd))]
| od_dir_failed (st_mode e : Z) (freed : string) :
    Z.land st_mode S_IFMT = S_IFDIR →
    open_dest_trace src dst (Some (-1, (basename src).2))
      [EvSys (SysStat dst) (Ok st_mode);
       EvSys (SysOpen (dst +:+ "/" +:+ (basename src).1) (Z.lor O_CREAT O_WRONLY)
                (Some mode_0644)) (Err e);
       EvStderr ("failed to create " +:+ freed +:+ ": " +:+ strerror e +:+ LF)].

Inductive check_trace (src_fd dest_fd : Z) : bool → list event → Prop :=
| ck_src_failed (e : Z) :
    check_trace src_fd dest_fd false
      [EvSys (SysFstatfs src_fd) (Err e);
       EvStderr ("failed to stat source file system: " +:+ strerror e +:+ LF)]
| ck_src_other (t : Z) :
    is_cifs_type t = false →
    check_trace src_fd dest_fd false
      [EvSys (SysFstatfs src_fd) (Ok t);
       EvStderr ("source file system is not CIFS/SMB2!" +:+ LF)]
| ck_dest_failed (t e : Z) :
    is_cifs_type t = true →
    check_trace src_fd dest_fd false
      [EvSys (SysFstatfs src_fd) (Ok t);
       EvSys (SysFstatfs dest_fd) (Err e);
       EvStderr ("failed to stat destination file system: " +:+ strerror e +:+ LF)]
| ck_dest_other (t t' : Z) :
    is_cifs_type t = true →
    is_cifs_type t' = false →
    check_trace src_fd dest_fd false
      [EvSys (SysFstatfs src_fd) (Ok t);
       EvSys (SysFstatfs dest_fd) (Ok t');
       EvStderr ("destination file system is not CIFS/SMB2!" +:+ LF)]
| ck_both (t t' : Z) :
    is_cifs_type t = true →
    is_cifs_type t' = true →
    check_trace src_fd dest_fd true
      [EvSys (SysFstatfs src_fd) (Ok t); EvSys (SysFstatfs dest_fd) (Ok t')].

(** When the request returns a non-zero value without failing, [%m] prints
    whatever [errno] held before. *)
Inductive clone_trace (src_fd dst_fd : Z) : Z → list event → Prop :=
| cn_cloned :
    clone_trace src_fd dst_fd 0
      [EvSys (SysIoctl dst_fd CIFS_IOC_COPYCHUNK_FILE src_fd) (Ok 0)]
| cn_nonzero (v e : Z) :
    v ≠ 0 →
    clone_trace src_fd dst_fd (-1)
      [EvSys (SysIoctl dst_fd CIFS_IOC_COPYCHUNK_FILE src_fd) (Ok v);
       EvStderr ("server-side-copy failed: " +:+ strerror e +:+ LF)]
| cn_failed (e : Z) :
    clone_trace src_fd dst_fd (-1)
      [EvSys (SysIoctl dst_fd CIFS_IOC_COPYCHUNK_FILE src_fd) (Err e);
       EvStderr ("server-side-copy failed: " +:+ strerror e +:+ LF)].

(** Closing one descriptor at a cleanup label: [ret] survives a successful
    close and becomes 1 otherwise. *)
Inductive close_trace (msg : string) (fd ret : Z) : Z → list event → Prop :=
| cl_closed :
    close_trace msg fd ret ret [EvSys (SysClose fd) (Ok 0)]
| cl_failed (e : Z) :
    close_trace msg fd ret 1
      [EvSys (SysClose fd) (Err e); EvStderr (msg +:+ strerror e +:+ LF)].

Inductive closes_trace (src_fd dst_fd ret : Z) : Z → list event → Prop :=
| cls (ret' ret'' : Z) (d c : list event) :
    close_trace "failed to close dst file: " dst_fd ret ret' d →
    close_trace "failed to close src file: " src_fd ret' ret'' c →
    closes_trace src_fd dst_fd ret ret'' (d ++ c).

Inductive main_trace (ret0 argc : Z) (argv : list string) : option Z → list event → Prop :=
| mt_usage :
    argc ≠ 3 →
    main_trace ret0 argc argv (Some ret0)
      [EvStderr ("Usage: " +:+ arg argv 0 +:+ (" SRC DST" +:+ LF))]
| mt_oom :
    argc = 3 →
    main_trace ret0 argc argv None [out_of_memory]
| mt_src_failed (e : Z) :
    argc = 3 →
    main_trace ret0 argc argv (Some 1)
      [EvSys (SysOpen (arg argv 1) O_RDWR None) (Err e);
       EvStderr ("failed to open " +:+ arg argv 1 +:+ ": " +:+ strerror e +:+ LF)]
| mt_dest_oom (src_fd : N) (od : list event) :
    argc = 3 →
    open_dest_trace (arg argv 1) (arg argv 2) None od →
    main_trace ret0 argc argv None
      (EvSys (SysOpen (arg argv 1) O_RDWR None) (Ok (Z.of_N src_fd)) :: od)
| mt_dest_failed (src_fd : N) (src : string) (ret : Z) (od cl : list event) :
    argc = 3 →
    open_dest_trace (arg argv 1) (arg argv 2) (Some (-1, src)) od →
    close_trace "failed to close src file: " (Z.of_N src_fd) 1 ret cl →
    main_trace ret0 argc argv (Some ret)
      (EvSys (SysOpen (arg argv 1) O_RDWR None) (Ok (Z.of_N src_fd)) :: od ++ cl)
| mt_not_cifs (src_fd : N) (dst_fd : Z) (src : string) (ret : Z)
    (od ck cl : list event) :
    argc = 3 →
    open_dest_trace (arg argv 1) (arg argv 2) (Some (dst_fd, src)) od →
    dst_fd ≠ -1 →
    check_trace (Z.of_N src_fd) dst_fd false ck →
    closes_trace (Z.of_N src_fd) dst_fd 1 ret cl →
    main_trace ret0 argc argv (Some ret)
      (EvSys (SysOpen (arg argv 1) O_RDWR None) (Ok (Z.of_N src_fd)) :: od ++ ck ++ cl)
| mt_clone_failed (src_fd : N) (dst_fd : Z) (src : string) (cloned ret : Z)
    (od ck cn cl : list event) :
    argc = 3 →
    open_dest_trace (arg argv 1) (arg argv 2) (Some (dst_fd, src)) od →
    dst_fd ≠ -1 →
    check_trace (Z.of_N src_fd) dst_fd true ck →
    clone_trace (Z.of_N src_fd) dst_fd cloned cn →
    cloned ≠ 0 →
    closes_trace (Z.of_N src_fd) dst_fd 1 ret cl →
    main_trace ret0 argc argv (Some ret)
      (EvSys (SysOpen (arg argv 1) O_RDWR None) (Ok (Z.of_N src_fd))
         :: od ++ ck ++ cn ++ cl)
| mt_unlink_failed (src_fd : N) (dst_fd : Z) (src : string) (e ret : Z)
    (od ck cn cl : list event) :
    argc = 3 →
    open_dest_trace (arg argv 1) (arg argv 2) (Some (dst_fd, src)) od →
    dst_fd ≠ -1 →
    check_trace (Z.of_N src_fd) dst_fd true ck →
    clone_trace (Z.of_N src_fd) dst_fd 0 cn →
    closes_trace (Z.of_N src_fd) dst_fd ret0 ret cl →
    main_trace ret0 argc argv (Some ret)
      (EvSys (SysOpen (arg argv 1) O_RDWR None) (Ok (Z.of_N src_fd))
         :: od ++ ck ++ cn
         ++ [EvSys (SysUnlink src) (Err e);
             EvStderr ("unable to remove source file: " +:+ strerror e +:+ LF)]
         ++ cl)
| mt_moved (src_fd : N) (dst_fd : Z) (src : string) (ret : Z)
    (od ck cn cl : list event) :
    argc = 3 →
    open_dest_trace (arg argv 1) (arg argv 2) (Some (dst_fd, src)) od →
    dst_fd ≠ -1 →
    check_trace (Z.of_N src_fd) dst_fd true ck →
    clone_trace (Z.of_N src_fd) dst_fd 0 cn →
    closes_trace (Z.of_N src_fd) dst_fd 0 ret cl →
    main_trace ret0 argc argv (Some ret)
      (EvSys (SysOpen (arg argv 1) O_RDWR None) (Ok (Z.of_N src_fd))
         :: od ++ ck ++ cn ++ [EvSys (SysUnlink src) (Ok 0)] ++ cl).

End Traces.

(** ** Notions used in the statements *)
Section Notions.
Context `{Platform} {W : Type} `{Kernel W}.

(** A file system type the program accepts. *)
Definition accepted (t : Z) : Prop := t = 0xFF534D42 ∨ t = 0xFE534D42.

(** The successful steps that precede the unlink in a run of [main]. *)
Definition cloned_before (argv : list string) (w : W) (src_file : string)
    (pre : list event) : Prop :=
  ∃ src dst src_fd dst_fd s0 s1 s2 s3 s4 s5,
    xstrdup (arg argv 1) (init w) = (Some src, s0)
    ∧ xstrdup (arg argv 2) s0 = (Some dst, s1)
    ∧ open src O_RDWR None s1 = (Some src_fd, s2) ∧ src_fd ≠ -1
    ∧ open_dest src dst s2 = (Some (dst_fd, src_file), s3) ∧ dst_fd ≠ -1
    ∧ check_is_cifs src_fd dst_fd s3 = (Some true, s4)
    ∧ clone_file_cifs src_fd dst_fd s4 = (Some 0, s5)
    ∧ pre = log s5
    ∧ last pre = Some (EvSys (SysIoctl dst_fd CIFS_IOC_COPYCHUNK_FILE src_fd) (Ok 0)).

(** One of the four steps before the unlink fails in the run of [main] on
    [argv] from [w]: the open of the source, [open_dest], [check_is_cifs] or
    [clone_file_cifs]. *)
Definition step_failed (argv : list string) (w : W) : Prop :=
  ∃ src dst s0 s1,
    xstrdup (arg argv 1) (init w) = (Some src, s0)
    ∧ xstrdup (arg argv 2) s0 = (Some dst, s1)
    ∧ ((∃ s2, open src O_RDWR None s1 = (Some (-1), s2))
       ∨ (∃ src_fd s2 src_file s3,
            open src O_RDWR None s1 = (Some src_fd, s2)
            ∧ open_dest src dst s2 = (Some (-1, src_file), s3))
       ∨ (∃ src_fd s2 dst_fd src_file s3 s4,
            open src O_RDWR None s1 = (Some src_fd, s2)
            ∧ open_dest src dst s2 = (Some (dst_fd, src_file), s3)
            ∧ check_is_cifs src_fd dst_fd s3 = (Some false, s4))
       ∨ (∃ src_fd s2 dst_fd src_file s3 s4 cloned s5,
            open src O_RDWR None s1 = (Some src_fd, s2)
            ∧ open_dest src dst s2 = (Some (dst_fd, src_file), s3)
            ∧ check_is_cifs src_fd dst_fd s3 = (Some true, s4)
            ∧ clone_file_cifs src_fd dst_fd s4 = (Some cloned, s5)
            ∧ cloned ≠ 0)).

End Notions.

(** The reading of "an unsupported file system leaves the disk as it was" on
    the reference kernel: when [fstatfs] reports a type that is not
    accepted, [main] returns 1, makes no ioctl and no unlink, and the files
    of the world are those it started with. *)
Definition unsupported_leaves_disk (ret0 : Z) (argv : list string) (w : Ref.world) : Prop :=
  let run := main ret0 3 argv (init w) in
  (∃ fd t, EvSys (SysFstatfs fd) (Ok t) ∈ log run.2 ∧ ¬ accepted t) →
  run.1 = Some 1
  ∧ never KIoctl (log run.2)
  ∧ never KUnlink (log run.2)
  ∧ Ref.files (world run.2) = Ref.files w.

(** ** Descriptors and counts in a log *)

(** The descriptor a successful [open] returned. *)
Definition opened_fd (ev : event) : option Z :=
  match ev with
  | EvSys (SysOpen _ _ _) (Ok fd) => Some fd
  | _ => None
  end.

(** The descriptor a [close] was called on. *)
Definition closed_fd (ev : event) : option Z :=
  match ev with
  | EvSys (SysClose fd) _ => Some fd
  | _ => None
  end.

Definition opened_fds (evs : list event) : list Z := omap opened_fd evs.
Definition closed_fds (evs : list event) : list Z := omap closed_fd evs.

(** How many events of [evs] are of the kind [k]. *)
Definition count (k : kind) (evs : list event) : nat :=
  length (filter (λ ev, kind_of ev = k) evs).

(** * Properties *)

Section Properties.
Context `{Platform} {W : Type} `{Kernel W}.

Implicit Types (s : state W) (w : W) (e : Z) (src dst path : string).

(** ** Running the wrappers *)

Ltac unfold_monad :=
  unfold mbind, M_bind, mret, M_ret, fprintf_stderr, emit, get_errno, abort, free.

Ltac unfold_libc :=
  unfold open, stat, fstatfs, ioctl, unlink, close, alloc, dangling, syscall_wrapper,
    c_int.

Ltac unfold_program :=
  unfold main, err_dst_close, err_src_close, err_out, open_dest,
    failed_to_create, check_is_cifs, clone_file_cifs, xasprintf, xstrdup.

Ltac run := unfold_program; unfold_libc; unfold_monad; simpl.

(** Splits on every answer of the kernel and every test of the program. *)
Ltac paths :=
  run; intros; repeat (case_match; simpl in *; simplify_eq); simpl in *.

Ltac bools :=
  repeat match goal with
  | E : negb _ = true |- _ => apply negb_true_iff in E
  | E : negb _ = false |- _ => apply negb_false_iff in E
  | E : (_ =? _) = true |- _ => apply Z.eqb_eq in E
  | E : (_ =? _) = false |- _ => apply Z.eqb_neq in E
  | E : (_ && _) = true |- _ => apply andb_true_iff in E; destruct E
  | E : (_ && _) = false |- _ => apply andb_false_iff in E; destruct E
  end; subst.

(** Names the events a path added and finds its constructor. *)
Ltac trace :=
  eexists; split_and?; [by rewrite <- ?app_assoc ..| simpl; try by econstructor].

Lemma is_cifs_type_spec (t : Z) :
  is_cifs_type t = true ↔ t = CIFS_SUPER_MAGIC ∨ t = SMB2_SUPER_MAGIC.
Proof.
  unfold is_cifs_type.
  rewrite negb_true_iff, andb_false_iff, !negb_false_iff, !Z.eqb_eq. done.
Qed.

Lemma is_cifs_type_false (t : Z) :
  t ≠ CIFS_SUPER_MAGIC → t ≠ SMB2_SUPER_MAGIC → is_cifs_type t = false.
Proof.
  intros. apply not_true_is_false. rewrite is_cifs_type_spec. tauto.
Qed.

Lemma open_dest_sound src dst s r s' :
  open_dest src dst s = (r, s') →
  ∃ evs, log s' = log s ++ evs ∧ open_dest_trace src dst r evs.
Proof.
  unfold open_dest. rewrite (surjective_pairing (basename src)).
  paths; bools; try lia; trace.
Qed.

Lemma check_is_cifs_sound src_fd dest_fd s r s' :
  check_is_cifs src_fd dest_fd s = (r, s') →
  ∃ b evs, r = Some b ∧ log s' = log s ++ evs ∧ check_trace src_fd dest_fd b evs.
Proof.
  paths; bools; try lia; eexists.
  all: trace.
  all: econstructor; first [done | by apply is_cifs_type_false].
Qed.

Lemma clone_file_cifs_sound src_fd dst_fd s r s' :
  clone_file_cifs src_fd dst_fd s = (r, s') →
  ∃ ret evs, r = Some ret ∧ log s' = log s ++ evs ∧ clone_trace src_fd dst_fd ret evs.
Proof.
  paths; bools; try lia; eexists.
  all: trace.
Qed.

Lemma err_src_close_sound src_file dst_file src_fd ret s r s' :
  err_src_close src_file dst_file src_fd ret s = (r, s') →
  ∃ ret' evs, r = Some ret' ∧ log s' = log s ++ evs
    ∧ close_trace "failed to close src file: " src_fd ret ret' evs.
Proof.
  paths; bools; try lia; eexists.
  all: trace.
Qed.

Lemma err_dst_close_sound src_file dst_file src_fd dst_fd ret s r s' :
  err_dst_close src_file dst_file src_fd dst_fd ret s = (r, s') →
  ∃ ret' evs, r = Some ret' ∧ log s' = log s ++ evs
    ∧ closes_trace src_fd dst_fd ret ret' evs.
Proof.
  paths; bools; try lia; eexists.
  all: eexists; split_and?; [done | by rewrite <- ?app_assoc | simpl].
  all: first
    [ by eapply (cls _ _ _ _ _ [_; _] [_; _]); constructor
    | by eapply (cls _ _ _ _ _ [_; _] [_]); constructor
    | by eapply (cls _ _ _ _ _ [_] [_; _]); constructor
    | by eapply (cls _ _ _ _ _ [_] [_]); constructor ].
Qed.

Lemma bind_eq {A B} (m : M W A) (k : A → M W B) s :
  (m ≫= k) s =
    match m s with
    | (Some a, s1) => k a s1
    | (None, s1) => (None, s1)
    end.
Proof. reflexivity. Qed.

Lemma xstrdup_sound str s r s' :
  xstrdup str s = (r, s') →
  (r = Some str ∧ log s' = log s) ∨ (r = None ∧ log s' = log s ++ [out_of_memory]).
Proof. paths; auto. Qed.

Lemma open_sound path flags mode s r s' :
  open path flags mode s = (r, s') →
  (∃ fd : N, r = Some (Z.of_N fd)
     ∧ log s' = log s ++ [EvSys (SysOpen path flags mode) (Ok (Z.of_N fd))])
  ∨ (∃ e, r = Some (-1) ∧ errno s' = e
     ∧ log s' = log s ++ [EvSys (SysOpen path flags mode) (Err e)]).
Proof. paths; eauto. Qed.

Lemma unlink_sound path s r s' :
  unlink path s = (r, s') →
  (r = Some 0 ∧ log s' = log s ++ [EvSys (SysUnlink path) (Ok 0)])
  ∨ (∃ e, r = Some (-1) ∧ errno s' = e
     ∧ log s' = log s ++ [EvSys (SysUnlink path) (Err e)]).
Proof. paths; eauto. Qed.

(** Every run of [main] follows one of the paths of [main_trace]. *)
Lemma main_sound ret0 argc argv w r s' :
  main ret0 argc argv (init w) = (r, s') →
  main_trace ret0 argc argv r (log s').
Proof.
  unfold main.
  destruct (argc =? 3) eqn:Eargc; simpl; bools.
  2: { run. intros [= <- <-]. by constructor. }
  rewrite bind_eq.
  destruct (xstrdup _ _) as [r0 s0] eqn:E0.
  apply xstrdup_sound in E0 as [[-> L0]|[-> L0]].
  2: { intros [= <- <-]. rewrite L0. by constructor. }
  rewrite bind_eq.
  destruct (xstrdup _ _) as [r1 s1] eqn:E1.
  apply xstrdup_sound in E1 as [[-> L1]|[-> L1]].
  2: { intros [= <- <-]. rewrite L1, L0. by constructor. }
  rewrite bind_eq.
  destruct (open _ _ _ _) as [r2 s2] eqn:E2.
  apply open_sound in E2 as [(src_fd & -> & L2)|(e & -> & Ee & L2)].
  2: { run. intros [= <- <-]. simpl. rewrite L2, L1, L0, Ee. by constructor. }
  destruct (Z.of_N src_fd =? -1) eqn:Efd; bools; [lia|].
  rewrite bind_eq.
  destruct (open_dest _ _ _) as [r3 s3] eqn:E3.
  apply open_dest_sound in E3 as (od & L3 & Tod).
  destruct r3 as [[dst_fd src]|].
  2: { intros [= <- <-]. rewrite L3, L2, L1, L0. by econstructor. }
  destruct (dst_fd =? -1) eqn:Edst; bools.
  { intros (ret & cl & -> & L4 & Tcl)%err_src_close_sound.
    rewrite L4, L3, L2, L1, L0. simpl. by econstructor. }
  rewrite bind_eq.
  destruct (check_is_cifs _ _ _) as [r4 s4] eqn:E4.
  apply check_is_cifs_sound in E4 as (is_cifs & ck & -> & L4 & Tck).
  destruct is_cifs; simpl.
  2: { intros (ret & cl & -> & L5 & Tcl)%err_dst_close_sound.
       rewrite L5, L4, L3, L2, L1, L0, <- !app_assoc. simpl. by econstructor. }
  rewrite bind_eq.
  destruct (clone_file_cifs _ _ _) as [r5 s5] eqn:E5.
  apply clone_file_cifs_sound in E5 as (cloned & cn & -> & L5 & Tcn).
  destruct (cloned =? 0) eqn:Ecl; bools; simpl.
  2: { intros (ret & cl & -> & L6 & Tcl)%err_dst_close_sound.
       rewrite L6, L5, L4, L3, L2, L1, L0, <- !app_assoc. simpl. by econstructor. }
  rewrite bind_eq.
  destruct (unlink _ _) as [r6 s6] eqn:E6.
  apply unlink_sound in E6 as [[-> L6]|(e & -> & Ee & L6)]; simpl.
  - intros (ret & cl & -> & L7 & Tcl)%err_dst_close_sound.
    rewrite L7, L6, L5, L4, L3, L2, L1, L0, <- !app_assoc. simpl. by econstructor.
  - unfold_monad. simpl.
    intros (ret & cl & -> & L7 & Tcl)%err_dst_close_sound. simpl in L7.
    rewrite L7, L6, L5, L4, L3, L2, L1, L0, Ee, <- !app_assoc. simpl.
    by econstructor.
Qed.

(** ** Which kinds of events each function produces *)

Lemma only_never ks k evs : only ks evs → k ∉ ks → never k evs.
Proof.
  unfold only, never. intros Hks Hk. eapply Forall_impl; [done|].
  intros ev Hev Heq. simpl in *. by subst k.
Qed.

Lemma never_app k evs1 evs2 : never k (evs1 ++ evs2) ↔ never k evs1 ∧ never k evs2.
Proof. unfold never. by rewrite Forall_app. Qed.

Lemma never_cons k ev evs : never k (ev :: evs) ↔ kind_of ev ≠ k ∧ never k evs.
Proof. unfold never. by rewrite Forall_cons. Qed.

Lemma never_nil k : never k [].
Proof. constructor. Qed.

(** [k ∉ ks] for a list of kinds that does not hold [k]. *)
Ltac not_in :=
  let K := fresh "K" in
  intros K;
  repeat (apply elem_of_cons in K as [K|K]; [discriminate K|]);
  by apply elem_of_nil in K.

Ltac kinds :=
  unfold only, out_of_memory; repeat (apply Forall_cons; split);
  try (by apply Forall_nil); simpl;
  repeat first [ by apply list_elem_of_here | apply list_elem_of_further ].

Lemma open_dest_only src dst r evs :
  open_dest_trace src dst r evs → only [KStat; KOpen; KStderr] evs.
Proof. destruct 1; kinds. Qed.

Lemma check_only src_fd dest_fd b evs :
  check_trace src_fd dest_fd b evs → only [KFstatfs; KStderr] evs.
Proof. destruct 1; kinds. Qed.

Lemma clone_only src_fd dst_fd ret evs :
  clone_trace src_fd dst_fd ret evs → only [KIoctl; KStderr] evs.
Proof. destruct 1; kinds. Qed.

Lemma close_only msg fd ret ret' evs :
  close_trace msg fd ret ret' evs → only [KClose; KStderr] evs.
Proof. destruct 1; kinds. Qed.

Lemma closes_only src_fd dst_fd ret ret' evs :
  closes_trace src_fd dst_fd ret ret' evs → only [KClose; KStderr] evs.
Proof.
  destruct 1. apply Forall_app. split; by eapply close_only.
Qed.

Lemma elem_only ks ev evs : only ks evs → ev ∈ evs → kind_of ev ∈ ks.
Proof. unfold only. rewrite Forall_forall. auto. Qed.

(** [Hin : ev ∈ evs] is absurd because the function that produced [evs]
    makes no event of the kind of [ev]. *)
Ltac by_kind Hin :=
  exfalso;
  let K := fresh "K" in
  match type of Hin with
  | _ ∈ ?evs =>
      match goal with
      | T : open_dest_trace _ _ _ evs |- _ =>
          pose proof (elem_only _ _ _ (open_dest_only _ _ _ _ T) Hin) as K
      | T : check_trace _ _ _ evs |- _ =>
          pose proof (elem_only _ _ _ (check_only _ _ _ _ T) Hin) as K
      | T : clone_trace _ _ _ evs |- _ =>
          pose proof (elem_only _ _ _ (clone_only _ _ _ _ T) Hin) as K
      | T : close_trace _ _ _ _ evs |- _ =>
          pose proof (elem_only _ _ _ (close_only _ _ _ _ _ T) Hin) as K
      | T : closes_trace _ _ _ _ evs |- _ =>
          pose proof (elem_only _ _ _ (closes_only _ _ _ _ _ T) Hin) as K
      end
  end;
  simpl in K;
  try match goal with Hk : kind_of _ = _ |- _ => rewrite Hk in K end;
  repeat (apply elem_of_cons in K as [K|K]; [discriminate K|]);
  by apply elem_of_nil in K.

(** Finds where in a log made of the traces of the functions the event of
    [Hin] sits, leaving the positions its kind allows. *)
Ltac locate Hin :=
  repeat match type of Hin with
  | _ ∈ [] => by apply elem_of_nil in Hin
  | _ ∈ _ :: _ => apply elem_of_cons in Hin as [Hin|Hin]; [try done; simplify_eq|]
  | _ ∈ _ ++ _ => apply elem_of_app in Hin as [Hin|Hin]; [try by_kind Hin|]
  | _ => try by_kind Hin
  end.

Lemma close_trace_one msg fd ret evs : close_trace msg fd 1 ret evs → ret = 1.
Proof. by inversion 1. Qed.

Lemma closes_trace_one src_fd dst_fd ret evs :
  closes_trace src_fd dst_fd 1 ret evs → ret = 1.
Proof.
  inversion 1 as [ret' ret'' d c Hd Hc]; subst.
  apply close_trace_one in Hd as ->. by apply close_trace_one in Hc.
Qed.

(** ** The destination resolver, [open_dest] *)

(** What a successful [stat] of a non-directory leaves in the trace. *)
Lemma open_dest_trace_refused src dst r od path st_mode :
  open_dest_trace src dst r od →
  EvSys (SysStat path) (Ok st_mode) ∈ od →
  Z.land st_mode S_IFMT ≠ S_IFDIR →
  path = dst ∧ r = Some (-1, src)
  ∧ od = [EvSys (SysStat dst) (Ok st_mode);
          EvStderr ("refusing to overwrite " +:+ dst +:+ LF)].
Proof.
  intros Tod Hin Hmode. destruct Tod; locate Hin; done.
Qed.

(** C2: when [stat] on the destination succeeds and the file is not a
    directory, [open_dest] returns -1 having done nothing but the [stat] and
    printing "refusing to overwrite <path>"; and a run of [main] in which
    that happens returns 1 without an ioctl or an unlink, its only [open]
    being that of the source. *)
Theorem refuses_to_overwrite :
  (∀ src dst s st_mode w1,
     k_stat dst (world s) = (Ok st_mode, w1) →
     Z.land st_mode S_IFMT ≠ S_IFDIR →
     open_dest src dst s =
       (Some (-1, src),
        State w1 (errno s)
          (log s ++ [EvSys (SysStat dst) (Ok st_mode);
                     EvStderr ("refusing to overwrite " +:+ dst +:+ LF)])))
  ∧ (∀ ret0 argc argv w r s' dst st_mode,
     main ret0 argc argv (init w) = (r, s') →
     EvSys (SysStat dst) (Ok st_mode) ∈ log s' →
     Z.land st_mode S_IFMT ≠ S_IFDIR →
     r = Some 1
     ∧ dst = arg argv 2
     ∧ EvStderr ("refusing to overwrite " +:+ dst +:+ LF) ∈ log s'
     ∧ never KIoctl (log s')
     ∧ never KUnlink (log s')
     ∧ ∀ ev, ev ∈ log s' → kind_of ev = KOpen →
         ∃ fd, ev = EvSys (SysOpen (arg argv 1) O_RDWR None) (Ok fd)).
Proof.
  split.
  - intros src dst s st_mode w1 Estat Hmode. run.
    rewrite Estat. simpl. apply Z.eqb_neq in Hmode. rewrite Hmode. simpl.
    by rewrite <- app_assoc.
  - intros ret0 argc argv w r s' dst st_mode Hmain%main_sound Hin Hmode.
    generalize dependent (log s'). intros evs Hmain Hin.
    inversion Hmain; subst; locate Hin;
      match goal with
      | T : open_dest_trace _ _ _ ?od |- _ =>
          destruct (open_dest_trace_refused _ _ _ _ _ _ T Hin Hmode) as (-> & [=] & ->)
      end; try done.
    match goal with
    | T : close_trace _ _ 1 _ _ |- _ => apply close_trace_one in T as Hret
    end. subst.
    simpl. split_and!; [done | done | | | |].
    + do 2 apply list_elem_of_further. apply list_elem_of_here.
    + repeat (apply never_cons; split; [done|]).
      eapply only_never; [by eapply close_only | not_in].
    + repeat (apply never_cons; split; [done|]).
      eapply only_never; [by eapply close_only | not_in].
    + intros ev Hev Hk. locate Hev; eauto; try done.
Qed.

(** C7: when [stat] on the destination fails with ENOENT, [open_dest] opens
    the destination with [O_CREAT | O_WRONLY] and mode 0644 and returns the
    new descriptor; when that open fails, or when [stat] fails with any
    other error, it returns -1 after reporting the system error of the call
    that failed. *)
Theorem open_dest_creates_missing src dst s :
  (∀ w1 fd w2,
     k_stat dst (world s) = (Err ENOENT, w1) →
     k_open dst (Z.lor O_CREAT O_WRONLY) (Some 420) w1 = (Ok fd, w2) →
     open_dest src dst s =
       (Some (Z.of_N fd, src),
        State w2 ENOENT
          (log s ++ [EvSys (SysStat dst) (Err ENOENT);
                     EvSys (SysOpen dst (Z.lor O_CREAT O_WRONLY) (Some 420))
                       (Ok (Z.of_N fd))])))
  ∧ (∀ w1 e w2,
     k_stat dst (world s) = (Err ENOENT, w1) →
     k_open dst (Z.lor O_CREAT O_WRONLY) (Some 420) w1 = (Err e, w2) →
     open_dest src dst s =
       (Some (-1, src),
        State w2 e
          (log s ++ [EvSys (SysStat dst) (Err ENOENT);
                     EvSys (SysOpen dst (Z.lor O_CREAT O_WRONLY) (Some 420)) (Err e);
                     EvStderr ("failed to create " +:+ dst +:+ ": "
                               +:+ strerror e +:+ LF)])))
  ∧ (∀ e w1,
     k_stat dst (world s) = (Err e, w1) →
     e ≠ ENOENT →
     open_dest src dst s =
       (Some (-1, src),
        State w1 e
          (log s ++ [EvSys (SysStat dst) (Err e);
                     EvStderr ("failed to create " +:+ dst +:+ ": "
                               +:+ strerror e +:+ LF)]))).
Proof.
  split_and!.
  - intros w1 fd w2 Estat Eopen. run.
    rewrite Estat. simpl. rewrite Z.eqb_refl. simpl.
    change mode_0644 with 420. rewrite Eopen. simpl.
    destruct (Z.of_N fd =? -1) eqn:Efd; bools; [lia|].
    simpl. by rewrite <- app_assoc.
  - intros w1 e w2 Estat Eopen. run.
    rewrite Estat. simpl. rewrite Z.eqb_refl. simpl.
    change mode_0644 with 420. rewrite Eopen. simpl.
    by rewrite <- !app_assoc.
  - intros e w1 Estat Hne. run.
    rewrite Estat. simpl. apply Z.eqb_neq in Hne. rewrite Hne. simpl.
    by rewrite <- !app_assoc.
Qed.

(** C8: when the destination is a directory, [open_dest] opens
    [dst/basename(src)] with [O_CREAT | O_WRONLY] and mode 0644 and returns
    the descriptor of that open; it returns -1 exactly when that open fails,
    after a "failed to create" message whose path is read from the buffer
    already freed, so it can be any text.  (The path is built in allocated
    memory; the statement is about runs in which the allocation succeeds.) *)
Theorem open_dest_into_directory src dst s st_mode w1 w2 r w3 :
  let new_dst := dst +:+ "/" +:+ (basename src).1 in
  k_stat dst (world s) = (Ok st_mode, w1) →
  Z.land st_mode S_IFMT = S_IFDIR →
  k_alloc (Z.of_nat (String.length new_dst) + 1) w1 = (true, w2) →
  k_open new_dst (Z.lor O_CREAT O_WRONLY) (Some 420) w2 = (r, w3) →
  ∃ ret s',
    open_dest src dst s = (Some (ret, (basename src).2), s')
    ∧ world s' = w3
    ∧ (ret = -1 ↔ ∃ e, r = Err e)
    ∧ match r with
      | Ok fd =>
          ret = Z.of_N fd
          ∧ log s' = log s ++ [EvSys (SysStat dst) (Ok st_mode);
                               EvSys (SysOpen new_dst (Z.lor O_CREAT O_WRONLY) (Some 420))
                                 (Ok (Z.of_N fd))]
      | Err e =>
          ∃ freed,
            log s' = log s ++ [EvSys (SysStat dst) (Ok st_mode);
                               EvSys (SysOpen new_dst (Z.lor O_CREAT O_WRONLY) (Some 420))
                                 (Err e);
                               EvStderr ("failed to create " +:+ freed +:+ ": "
                                         +:+ strerror e +:+ LF)]
      end.
Proof.
  intros new_dst Estat Hdir Ealloc Eopen.
  unfold open_dest. rewrite (surjective_pairing (basename src)). run.
  rewrite Estat. simpl. apply Z.eqb_eq in Hdir. rewrite Hdir.
  fold new_dst. cbn [world errno log]. rewrite Ealloc. simpl.
  change mode_0644 with 420. rewrite Eopen.
  destruct r as [fd|e]; simpl.
  - destruct (Z.of_N fd =? -1) eqn:Efd; bools; [lia|].
    do 2 eexists. split_and!; [done | done | | done | by rewrite <- !app_assoc].
    split; [lia | by intros [e [=]]].
  - do 2 eexists. split_and!; [done | done | | eexists; by rewrite <- !app_assoc].
    split; eauto.
Qed.

(** ** The file system validator, [check_is_cifs] *)

Lemma is_cifs_type_accepted (t : Z) : is_cifs_type t = true ↔ accepted t.
Proof. apply is_cifs_type_spec. Qed.

Lemma not_accepted (t : Z) : is_cifs_type t = false ↔ ¬ accepted t.
Proof.
  rewrite <- is_cifs_type_accepted. by destruct (is_cifs_type t).
Qed.

Lemma not_cifs_test (t : Z) :
  negb (t =? CIFS_SUPER_MAGIC) && negb (t =? SMB2_SUPER_MAGIC) = negb (is_cifs_type t).
Proof. unfold is_cifs_type. by rewrite negb_involutive. Qed.

(** C6: [check_is_cifs] returns true exactly when both [fstatfs] calls
    succeed and both file system types are one of 0xFF534D42 and 0xFE534D42;
    otherwise it returns false, and the last thing it did was to print a
    message that names the side, source or destination, that failed. *)
Theorem check_is_cifs_accepts_only_smb src_fd dest_fd s r1 w1 r2 w2 :
  k_fstatfs src_fd (world s) = (r1, w1) →
  k_fstatfs dest_fd w1 = (r2, w2) →
  CIFS_SUPER_MAGIC = 0xFF534D42 ∧ SMB2_SUPER_MAGIC = 0xFE534D42 ∧
  ∃ b s',
    check_is_cifs src_fd dest_fd s = (Some b, s')
    ∧ (b = true ↔ ∃ t t', r1 = Ok t ∧ r2 = Ok t' ∧ accepted t ∧ accepted t')
    ∧ (b = false →
       ∃ text,
         last (log s') = Some (EvStderr text)
         ∧ ((∃ e, r1 = Err e
               ∧ text = "failed to stat source file system: " +:+ strerror e +:+ LF)
            ∨ (∃ t, r1 = Ok t ∧ ¬ accepted t
               ∧ text = "source file system is not CIFS/SMB2!" +:+ LF)
            ∨ (∃ t e, r1 = Ok t ∧ accepted t ∧ r2 = Err e
               ∧ text = "failed to stat destination file system: "
                        +:+ strerror e +:+ LF)
            ∨ (∃ t t', r1 = Ok t ∧ accepted t ∧ r2 = Ok t' ∧ ¬ accepted t'
               ∧ text = "destination file system is not CIFS/SMB2!" +:+ LF))).
Proof.
  intros E1 E2. split_and!; [done..|].
  unfold check_is_cifs. run. rewrite E1.
  destruct r1 as [t|e]; simpl.
  2: { do 2 eexists. split_and!; [done| |].
       - split; [done | by intros (? & ? & [=] & _)].
       - intros _. eexists. cbn [log]. rewrite last_snoc. split; [done|]. left. eauto. }
  rewrite (not_cifs_test t).
  destruct (is_cifs_type t) eqn:Et; simpl.
  2: { apply not_accepted in Et.
       do 2 eexists. split_and!; [done| |].
       - split; [done | intros (? & ? & [= <-] & _ & ? & _); done].
       - intros _. eexists. cbn [log]. rewrite last_snoc. split; [done|]. right. left. eauto. }
  apply is_cifs_type_accepted in Et.
  rewrite E2.
  destruct r2 as [t'|e]; simpl.
  2: { do 2 eexists. split_and!; [done| |].
       - split; [done | by intros (? & ? & _ & [=] & _)].
       - intros _. eexists. cbn [log]. rewrite last_snoc. split; [done|].
         right. right. left. eauto 10. }
  rewrite (not_cifs_test t').
  destruct (is_cifs_type t') eqn:Et'; simpl.
  - apply is_cifs_type_accepted in Et'.
    do 2 eexists. split_and!; [done| |done].
    split; [eauto 10 | done].
  - apply not_accepted in Et'.
    do 2 eexists. split_and!; [done| |].
    + split; [done | intros (? & ? & _ & [= <-] & _ & ?); done].
    + intros _. eexists. cbn [log]. rewrite last_snoc. split; [done|].
      right. right. right. eauto 10.
Qed.

(** ** The whole program, [main] *)

(** C5 (the code departs from it): with an argument count other than three,
    [main] prints the usage line and makes no system call, but [ret] was
    never assigned on this path: it returns whatever the variable held,
    which need not be 1. *)
Theorem usage_exit_status_is_unassigned ret0 argc argv s :
  argc ≠ 3 →
  main ret0 argc argv s =
    (Some ret0,
     State (world s) (errno s)
       (log s ++ [EvStderr ("Usage: " +:+ arg argv 0 +:+ " SRC DST" +:+ LF)])).
Proof.
  intros Hargc%Z.eqb_neq. unfold main. by rewrite Hargc.
Qed.

(** C10: the source is opened with [O_RDWR] before anything else is done;
    when the kernel refuses that open, as it does for a file the caller may
    not write, [main] returns 1 having made no other system call: the
    destination path is never looked at.  (The two [strdup] calls before the
    open must have obtained their memory.) *)
Theorem unwritable_source_fails_first ret0 argv w w1 w2 e w3 :
  k_alloc (Z.of_nat (String.length (arg argv 1)) + 1) w = (true, w1) →
  k_alloc (Z.of_nat (String.length (arg argv 2)) + 1) w1 = (true, w2) →
  k_open (arg argv 1) O_RDWR None w2 = (Err e, w3) →
  main ret0 3 argv (init w) =
    (Some 1,
     State w3 e
       [EvSys (SysOpen (arg argv 1) O_RDWR None) (Err e);
        EvStderr ("failed to open " +:+ arg argv 1 +:+ ": " +:+ strerror e +:+ LF)]).
Proof.
  intros E1 E2 E3. run. rewrite E1. cbn [world errno log]. rewrite E2.
  cbn [world errno log]. by rewrite E3.
Qed.

(** Proves [never k] of a log made of the traces of the functions. *)
Ltac nevers :=
  simpl;
  repeat (apply never_cons; split; [done|]);
  repeat (apply never_app; split);
  repeat (apply never_cons; split; [done|]);
  try apply never_nil;
  (eapply only_never;
   [ first [ by eapply open_dest_only | by eapply check_only | by eapply clone_only
           | by eapply close_only | by eapply closes_only ]
   | not_in ]).

Lemma check_trace_rejects src_fd dest_fd b ck fd t :
  check_trace src_fd dest_fd b ck →
  EvSys (SysFstatfs fd) (Ok t) ∈ ck →
  ¬ accepted t →
  b = false.
Proof.
  intros Tck Hin Ht%not_accepted. destruct Tck; locate Hin; congruence.
Qed.

(** C3 (as the code has it): in a run in which [fstatfs] reports, for the
    source or the destination, a file system type that is not accepted,
    [main] returns 1 and makes neither an ioctl nor an unlink: nothing is
    cloned and no file is removed, the source included.  A destination that
    [open_dest] created before the check is therefore still there. *)
Theorem unsupported_fs_stops_before_clone ret0 argc argv w r s' fd t :
  main ret0 argc argv (init w) = (r, s') →
  EvSys (SysFstatfs fd) (Ok t) ∈ log s' →
  ¬ accepted t →
  r = Some 1 ∧ never KIoctl (log s') ∧ never KUnlink (log s').
Proof.
  intros Hmain%main_sound Hin Ht.
  generalize dependent (log s'). intros evs Hmain Hin.
  inversion Hmain; subst; locate Hin;
    match goal with
    | T : check_trace _ _ _ ?ck |- _ =>
        pose proof (check_trace_rejects _ _ _ _ _ _ T Hin Ht) as Hb
    end; try done.
  match goal with
  | T : closes_trace _ _ 1 _ _ |- _ => apply closes_trace_one in T as Hret
  end. subst.
  split_and!; [done | nevers..].
Qed.

(** What the two closes at the end of [main] make of [ret]. *)
Lemma close_trace_ret msg fd ret ret' evs :
  close_trace msg fd ret ret' evs →
  (ret' = ret ∧ evs = [EvSys (SysClose fd) (Ok 0)])
  ∨ (ret' = 1 ∧ ∃ e, EvSys (SysClose fd) (Err e) ∈ evs).
Proof.
  destruct 1; [by left | right]. split; [done|]. eexists. apply list_elem_of_here.
Qed.

Lemma closes_trace_ret src_fd dst_fd ret ret' evs :
  closes_trace src_fd dst_fd ret ret' evs →
  (ret' = ret ∧ evs = [EvSys (SysClose dst_fd) (Ok 0); EvSys (SysClose src_fd) (Ok 0)])
  ∨ (ret' = 1 ∧ ∃ fd e, EvSys (SysClose fd) (Err e) ∈ evs).
Proof.
  destruct 1 as [ret' ret'' d c Hd Hc].
  apply close_trace_ret in Hd as [[-> ->]|[-> (e & He)]];
    apply close_trace_ret in Hc as [[-> ->]|[-> (e' & He')]].
  - by left.
  - right. split; [done|]. do 2 eexists. apply elem_of_app. eauto.
  - right. split; [done|]. do 2 eexists. apply elem_of_app. eauto.
  - right. split; [done|]. do 2 eexists. apply elem_of_app. eauto.
Qed.

Lemma close_trace_failed msg fd ret ret' evs fd' e :
  close_trace msg fd ret ret' evs → EvSys (SysClose fd') (Err e) ∈ evs → ret' = 1.
Proof. intros T Hin. destruct T; locate Hin; done. Qed.

Lemma closes_trace_failed src_fd dst_fd ret ret' evs fd e :
  closes_trace src_fd dst_fd ret ret' evs →
  EvSys (SysClose fd) (Err e) ∈ evs →
  ret' = 1.
Proof.
  intros T Hin. destruct T as [ret' ret'' d c Hd Hc].
  apply elem_of_app in Hin as [Hin|Hin].
  - apply (close_trace_failed _ _ _ _ _ _ _ Hd) in Hin as ->.
    by apply close_trace_one in Hc.
  - by apply (close_trace_failed _ _ _ _ _ _ _ Hc) in Hin.
Qed.

(** C4 (the code departs from it): in a run in which the unlink of the
    source fails, [main] prints "unable to remove source file" and does
    nothing afterwards but close the two descriptors, so the destination
    stays as the clone left it.  But [ret] was never assigned on this path:
    unless a close fails as well, [main] returns whatever the variable held,
    which need not be 1. *)
Theorem unlink_failure_exit_status ret0 argc argv w r s' path e :
  main ret0 argc argv (init w) = (r, s') →
  EvSys (SysUnlink path) (Err e) ∈ log s' →
  (∃ pre post,
     log s' = pre
              ++ [EvSys (SysUnlink path) (Err e);
                  EvStderr ("unable to remove source file: " +:+ strerror e +:+ LF)]
              ++ post
     ∧ never KUnlink pre
     ∧ only [KClose; KStderr] post)
  ∧ ((∀ fd e', EvSys (SysClose fd) (Err e') ∉ log s') → r = Some ret0)
  ∧ ((∃ fd e', EvSys (SysClose fd) (Err e') ∈ log s') → r = Some 1).
Proof.
  intros Hmain%main_sound Hin.
  generalize dependent (log s'). intros evs Hmain Hin.
  inversion Hmain; subst; locate Hin.
  match goal with
  | T : closes_trace _ _ ret0 _ ?cl |- _ =>
      pose proof (closes_only _ _ _ _ _ T) as Hcl;
      pose proof (closes_trace_ret _ _ _ _ _ T) as Hret
  end.
  split_and!.
  - eexists (_ :: od ++ ck ++ cn), cl. split_and!.
    + simpl. by rewrite <- !app_assoc.
    + nevers.
    + done.
  - intros Hno. destruct Hret as [[-> _]|[_ (fd & e' & Hc)]]; [done|].
    exfalso. apply (Hno fd e'). apply elem_of_cons. right.
    rewrite !elem_of_app. by do 4 right.
  - intros (fd & e' & Hc). locate Hc.
    match goal with
    | T : closes_trace _ _ ret0 _ ?cl |- _ =>
        by rewrite (closes_trace_failed _ _ _ _ _ _ _ T Hc)
    end.
Qed.

(** X15: a failing close makes [main] return 1, whatever happened before. *)
Lemma close_failure_forces_one ret0 argc argv w r s' fd e :
  main ret0 argc argv (init w) = (r, s') →
  EvSys (SysClose fd) (Err e) ∈ log s' →
  r = Some 1.
Proof.
  intros Hmain%main_sound Hin.
  generalize dependent (log s'). intros evs Hmain Hin.
  inversion Hmain; subst; locate Hin;
    match goal with
    | T : closes_trace _ _ _ _ ?cl |- _ =>
        by rewrite (closes_trace_failed _ _ _ _ _ _ _ T Hin)
    | T : close_trace _ _ _ _ ?cl |- _ =>
        by rewrite (close_trace_failed _ _ _ _ _ _ _ T Hin)
    end.
Qed.

(** ** The order of clone and unlink *)

Lemma never_split k pre ev post :
  never k (pre ++ ev :: post) → kind_of ev = k → False.
Proof.
  intros [_ [Hev _]%never_cons]%never_app Hk. done.
Qed.

(** A log with a single event of kind [k] splits around it in one way. *)
Lemma unique_split k (a b pre post : list event) x ev :
  a ++ x :: b = pre ++ ev :: post →
  kind_of ev = k →
  never k a → never k b →
  pre = a ∧ ev = x ∧ post = b.
Proof.
  revert pre. induction a as [|y a IH]; intros [|p pre]; simpl.
  - by intros [= -> ->].
  - intros [= -> ->] Hk _ Hb. destruct (never_split _ _ _ _ Hb Hk).
  - intros [= -> _] Hk [Hy _]%never_cons _. done.
  - intros [= -> Heq] Hk [_ Ha]%never_cons Hb.
    destruct (IH _ Heq Hk Ha Hb) as (-> & -> & ->). done.
Qed.

Lemma never_filter k evs :
  never k evs → filter (λ ev, kind_of ev = k) evs = [].
Proof.
  induction 1 as [|ev evs Hev _ IH]; [done|].
  by rewrite filter_cons_False.
Qed.

Lemma clone_trace_cloned src_fd dst_fd cn :
  clone_trace src_fd dst_fd 0 cn →
  cn = [EvSys (SysIoctl dst_fd CIFS_IOC_COPYCHUNK_FILE src_fd) (Ok 0)].
Proof. by inversion 1. Qed.

(** A run of [main] either makes no unlink, or makes one right after the
    steps of [cloned_before]. *)
Lemma main_unlink_stage ret0 argc argv w r s' :
  main ret0 argc argv (init w) = (r, s') →
  never KUnlink (log s')
  ∨ ∃ src_file pre res post,
      cloned_before argv w src_file pre
      ∧ log s' = pre ++ EvSys (SysUnlink src_file) res :: post
      ∧ never KUnlink pre ∧ never KUnlink post.
Proof.
  unfold main.
  destruct (argc =? 3) eqn:Eargc; simpl; bools.
  2: { run. intros ?; simplify_eq/=. left. nevers. }
  rewrite bind_eq.
  destruct (xstrdup _ (init w)) as [r0 s0] eqn:E0.
  pose proof E0 as [[-> L0]|[-> L0]]%xstrdup_sound.
  2: { intros ?; simplify_eq/=. left. rewrite L0. nevers. }
  rewrite bind_eq.
  destruct (xstrdup _ s0) as [r1 s1] eqn:E1.
  pose proof E1 as [[-> L1]|[-> L1]]%xstrdup_sound.
  2: { intros ?; simplify_eq/=. left. rewrite L1, L0. nevers. }
  rewrite bind_eq.
  destruct (open _ _ _ s1) as [r2 s2] eqn:E2.
  pose proof E2 as [(src_fd & -> & L2)|(e & -> & Ee & L2)]%open_sound.
  2: { run. intros ?; simplify_eq/=. left. simpl. rewrite L2, L1, L0. nevers. }
  destruct (Z.of_N src_fd =? -1) eqn:Efd; bools; [lia|].
  rewrite bind_eq.
  destruct (open_dest _ _ s2) as [r3 s3] eqn:E3.
  pose proof E3 as (od & L3 & Tod)%open_dest_sound.
  destruct r3 as [[dst_fd src]|].
  2: { intros ?; simplify_eq/=. left. rewrite L3, L2, L1, L0. nevers. }
  destruct (dst_fd =? -1) eqn:Edst; bools.
  { intros (ret & cl & -> & L4 & Tcl)%err_src_close_sound.
    left. rewrite L4, L3, L2, L1, L0. nevers. }
  rewrite bind_eq.
  destruct (check_is_cifs _ _ s3) as [r4 s4] eqn:E4.
  pose proof E4 as (is_cifs & ck & -> & L4 & Tck)%check_is_cifs_sound.
  destruct is_cifs; simpl.
  2: { intros (ret & cl & -> & L5 & Tcl)%err_dst_close_sound.
       left. rewrite L5, L4, L3, L2, L1, L0. nevers. }
  rewrite bind_eq.
  destruct (clone_file_cifs _ _ s4) as [r5 s5] eqn:E5.
  pose proof E5 as (cloned & cn & -> & L5 & Tcn)%clone_file_cifs_sound.
  destruct (cloned =? 0) eqn:Ecl; bools; simpl.
  2: { intros (ret & cl & -> & L6 & Tcl)%err_dst_close_sound.
       left. rewrite L6, L5, L4, L3, L2, L1, L0. nevers. }
  assert (never KUnlink (log s5)) as Hpre.
  { rewrite L5, L4, L3, L2, L1, L0. nevers. }
  assert (cloned_before argv w src (log s5)) as Hchain.
  { do 10 eexists. split_and!; try done.
    rewrite L5, (clone_trace_cloned _ _ _ Tcn). apply last_snoc. }
  rewrite bind_eq.
  destruct (unlink _ s5) as [r6 s6] eqn:E6.
  apply unlink_sound in E6 as [[-> L6]|(e & -> & Ee & L6)]; simpl.
  - intros (ret & cl & -> & L7 & Tcl)%err_dst_close_sound.
    right. exists src, (log s5), (Ok 0), cl. split_and!; [done| |done|nevers].
    by rewrite L7, L6, <- app_assoc.
  - unfold_monad. simpl.
    intros (ret & cl & -> & L7 & Tcl)%err_dst_close_sound. simpl in L7.
    right. eexists src, (log s5), (Err e), (_ :: cl). split_and!; [done| |done|].
    + by rewrite L7, L6, <- !app_assoc.
    + nevers.
Qed.

(** The steps are functions of the state: a run in which one of them fails
    is not a run in which all of them succeed. *)
Lemma step_failed_not_cloned argv w src_file pre :
  step_failed argv w → cloned_before argv w src_file pre → False.
Proof.
  intros (src & dst & s0 & s1 & E0 & E1 & Hfail).
  intros (src' & dst' & src_fd & dst_fd & t0 & t1 & t2 & t3 & t4 & t5
          & F0 & F1 & F2 & Hsrc & F3 & Hdst & F4 & F5 & _).
  rewrite E0 in F0. injection F0 as <- <-.
  rewrite E1 in F1. injection F1 as <- <-.
  destruct Hfail as
    [ (s2 & E2)
    | [ (fd & s2 & sf & s3 & E2 & E3)
      | [ (fd & s2 & dfd & sf & s3 & s4 & E2 & E3 & E4)
        | (fd & s2 & dfd & sf & s3 & s4 & c & s5 & E2 & E3 & E4 & E5 & Hc) ] ] ];
    rewrite E2 in F2; injection F2 as <- <-; try done;
    rewrite E3 in F3; injection F3 as <- <- <-; try done;
    rewrite E4 in F4; try done;
    injection F4 as <-; rewrite E5 in F5; injection F5 as -> _; done.
Qed.

(** C1: in every run of [main] there is at most one unlink, and an unlink
    happens only when the open of the source, [open_dest], [check_is_cifs]
    and [clone_file_cifs] have all succeeded in that run, directly after the
    copy-chunk ioctl returned 0.  When one of the four fails, no unlink is
    made. *)
Theorem unlink_only_after_clone ret0 argc argv w r s' :
  main ret0 argc argv (init w) = (r, s') →
  (length (filter (λ ev, kind_of ev = KUnlink) (log s')) ≤ 1)%nat
  ∧ (∀ pre ev post,
       log s' = pre ++ ev :: post →
       kind_of ev = KUnlink →
       ∃ src_file res,
         ev = EvSys (SysUnlink src_file) res ∧ cloned_before argv w src_file pre)
  ∧ (step_failed argv w → never KUnlink (log s')).
Proof.
  intros [Hno|(src_file & pre0 & res & post0 & Hchain & Hlog & Hpre & Hpost)]%main_unlink_stage.
  - split_and!.
    + rewrite (never_filter _ _ Hno). simpl. lia.
    + intros pre ev post Hlog Hk. rewrite Hlog in Hno.
      destruct (never_split _ _ _ _ Hno Hk).
    + done.
  - split_and!.
    + rewrite Hlog, filter_app, filter_cons_True by done.
      rewrite (never_filter _ _ Hpre), (never_filter _ _ Hpost). simpl. lia.
    + intros pre ev post Hlog' Hk. rewrite Hlog in Hlog'.
      destruct (unique_split _ _ _ _ _ _ _ Hlog' Hk Hpre Hpost) as (-> & -> & ->).
      eauto.
    + intros Hfail. destruct (step_failed_not_cloned _ _ _ _ Hfail Hchain).
Qed.

(** X16: when [ret] does hold a non-zero value at the start, [main] returns 0
    only from the path on which every step succeeded: the source was
    unlinked and nothing was written to standard error. *)
Lemma exit_zero_when_initialised ret0 argc argv w s' :
  ret0 ≠ 0 →
  main ret0 argc argv (init w) = (Some 0, s') →
  (∃ path, EvSys (SysUnlink path) (Ok 0) ∈ log s') ∧ never KStderr (log s').
Proof.
  intros Hret0 Hmain%main_sound.
  generalize dependent (log s'). intros evs Hmain.
  inversion Hmain; subst; try done;
    repeat match goal with
    | T : close_trace _ _ 1 _ _ |- _ => apply close_trace_one in T; try done
    | T : closes_trace _ _ 1 _ _ |- _ => apply closes_trace_one in T; try done
    | T : closes_trace _ _ _ 0 _ |- _ =>
        apply closes_trace_ret in T as [[? ->]|[? _]]; try done
    end.
  split.
  - eexists. apply elem_of_cons. right. rewrite !elem_of_app. do 3 right.
    left. apply list_elem_of_here.
  - match goal with
    | Tod : open_dest_trace _ _ _ _, Tck : check_trace _ _ true _,
      Tcn : clone_trace _ _ 0 _ |- _ =>
        inversion Tod; subst; try done; inversion Tck; subst;
        inversion Tcn; subst
    end; by repeat constructor.
Qed.

(** Computes a count over a trace whose events are known. *)
Ltac counted := vm_compute; first [reflexivity | lia].

(** ** The remote cloner, [clone_file_cifs] *)

(** X1: [clone_file_cifs] makes exactly one system call, the copy-chunk
    ioctl on the destination descriptor with the source descriptor as its
    argument, and never aborts.  It returns 0 when the ioctl returned 0;
    any other answer, a non-zero return value included, becomes -1 after one
    message that shows [errno] as it is then (unchanged from the entry when
    the ioctl did not fail). *)
Theorem clone_file_cifs_single_request src_fd dst_fd s r s' :
  clone_file_cifs src_fd dst_fd s = (r, s') →
  ∃ res msgs,
    log s' = log s ++ EvSys (SysIoctl dst_fd CIFS_IOC_COPYCHUNK_FILE src_fd) res :: msgs
    ∧ (res = Ok 0 → r = Some 0 ∧ msgs = [])
    ∧ (res ≠ Ok 0 →
       r = Some (-1)
       ∧ msgs = [EvStderr ("server-side-copy failed: " +:+ strerror (errno s') +:+ LF)])
    ∧ (∀ v, res = Ok v → errno s' = errno s)
    ∧ (∀ e, res = Err e → errno s' = e).
Proof.
  paths; bools; do 2 eexists;
    (split_and!; [by rewrite <- ?app_assoc | ..]); try done;
    intros; simplify_eq; done.
Qed.

(** ** More on [check_is_cifs] *)

(** X2: [check_is_cifs] looks at the source first and stops there when the
    source is not accepted: whether its [fstatfs] failed or gave another
    type, the function returns false after that one call and one message,
    and the destination descriptor is never queried. *)
Theorem check_is_cifs_source_first src_fd dest_fd s r1 w1 :
  k_fstatfs src_fd (world s) = (r1, w1) →
  (∀ t, r1 = Ok t → ¬ accepted t) →
  ∃ s' text,
    check_is_cifs src_fd dest_fd s = (Some false, s')
    ∧ world s' = w1
    ∧ log s' = log s ++ [EvSys (SysFstatfs src_fd) r1; EvStderr text].
Proof.
  intros E1 Hbad. unfold check_is_cifs. run. rewrite E1.
  destruct r1 as [t|e]; simpl.
  - rewrite (not_cifs_test t).
    assert (is_cifs_type t = false) as -> by (apply not_accepted; auto).
    simpl. do 2 eexists. split_and!; [done | done | by rewrite <- app_assoc].
  - do 2 eexists. split_and!; [done | done | by rewrite <- app_assoc].
Qed.

(** ** More on [open_dest] *)

(** X3: [open_dest] returns either -1 or a descriptor that is not negative.
    It returns a descriptor only when the last thing it did was a successful
    open, with [O_CREAT | O_WRONLY] and mode 0644, that returned this
    descriptor, and then it has printed nothing; it returns -1 only after
    printing exactly one message, as the last thing it did. *)
Theorem open_dest_outcome src dst s ret src_file s' :
  open_dest src dst s = (Some (ret, src_file), s') →
  ∃ evs,
    log s' = log s ++ evs
    ∧ ((ret = -1
        ∧ count KStderr evs = 1%nat
        ∧ ∃ text, last evs = Some (EvStderr text))
       ∨ (0 ≤ ret
          ∧ count KStderr evs = 0%nat
          ∧ ∃ path,
              last evs = Some (EvSys (SysOpen path (Z.lor O_CREAT O_WRONLY) (Some 420))
                                 (Ok ret)))).
Proof.
  intros (evs & Hlog & Tod)%open_dest_sound. exists evs. split; [done|].
  inversion Tod; subst; first
    [ left; split_and!; [done | counted | by eexists]
    | right; split_and!; [lia | counted | by eexists] ].
Qed.

(** X4: the first thing [open_dest] does is a [stat] of the destination
    path, and it never calls [stat] again.  After it, it makes at most one
    more system call: an open, with [O_CREAT | O_WRONLY] and mode 0644, of
    the destination path itself or of [dst/basename(src)].  It never closes,
    unlinks or clones anything. *)
Theorem open_dest_calls src dst s r s' :
  open_dest src dst s = (r, s') →
  ∃ res rest,
    log s' = log s ++ EvSys (SysStat dst) res :: rest
    ∧ only [KOpen; KStderr] rest
    ∧ (count KOpen rest ≤ 1)%nat
    ∧ ∀ ev, ev ∈ rest → kind_of ev = KOpen →
        ∃ path answer,
          ev = EvSys (SysOpen path (Z.lor O_CREAT O_WRONLY) (Some 420)) answer
          ∧ (path = dst ∨ path = dst +:+ "/" +:+ (basename src).1).
Proof.
  intros (evs & Hlog & Tod)%open_dest_sound.
  inversion Tod; subst; do 2 eexists;
    (split_and!; [done | kinds | counted | ]);
    intros ev Hev Hk; locate Hev; eauto.
Qed.

(** ** More on the whole program *)

Lemma count_app k evs1 evs2 : count k (evs1 ++ evs2) = (count k evs1 + count k evs2)%nat.
Proof. unfold count. by rewrite filter_app, length_app. Qed.

Lemma count_cons_eq k ev evs : kind_of ev = k → count k (ev :: evs) = S (count k evs).
Proof. intros Hk. unfold count. by rewrite filter_cons_True. Qed.

Lemma count_cons_ne k ev evs : kind_of ev ≠ k → count k (ev :: evs) = count k evs.
Proof. intros Hk. unfold count. by rewrite filter_cons_False. Qed.

Lemma count_never k evs : never k evs → count k evs = 0%nat.
Proof. intros Hn. unfold count. by rewrite never_filter. Qed.

(** Brings the count of a log made of traces to a sum of their counts. *)
Ltac count_parts :=
  repeat first
    [ rewrite count_app
    | rewrite count_cons_eq by done
    | rewrite count_cons_ne by done ].

Lemma open_dest_counts src dst r evs :
  open_dest_trace src dst r evs →
  count KStat evs = 1%nat ∧ (count KOpen evs ≤ 1)%nat.
Proof. destruct 1; split; counted. Qed.

Lemma check_counts src_fd dest_fd b evs :
  check_trace src_fd dest_fd b evs → (count KFstatfs evs ≤ 2)%nat.
Proof. destruct 1; counted. Qed.

Lemma clone_counts src_fd dst_fd ret evs :
  clone_trace src_fd dst_fd ret evs → count KIoctl evs = 1%nat.
Proof. destruct 1; counted. Qed.

Lemma close_counts msg fd ret ret' evs :
  close_trace msg fd ret ret' evs → count KClose evs = 1%nat.
Proof. destruct 1; counted. Qed.

Lemma closes_counts src_fd dst_fd ret ret' evs :
  closes_trace src_fd dst_fd ret ret' evs → count KClose evs = 2%nat.
Proof.
  destruct 1 as [ret' ret'' d c Hd Hc]. rewrite count_app.
  by rewrite (close_counts _ _ _ _ _ Hd), (close_counts _ _ _ _ _ Hc).
Qed.

(** The count of a kind a trace never shows is 0. *)
Ltac count_zero :=
  apply count_never;
  eapply only_never;
  [ first [ by eapply open_dest_only | by eapply check_only | by eapply clone_only
          | by eapply close_only | by eapply closes_only ]
  | not_in ].

(** X5: [main] never repeats a step.  A run makes at most one [stat], one
    ioctl and one unlink, and at most two opens, two [fstatfs] and two
    closes. *)
Theorem main_makes_each_call_once ret0 argc argv w :
  let evs := log (main ret0 argc argv (init w)).2 in
  (count KStat evs ≤ 1)%nat
  ∧ (count KIoctl evs ≤ 1)%nat
  ∧ (count KUnlink evs ≤ 1)%nat
  ∧ (count KOpen evs ≤ 2)%nat
  ∧ (count KFstatfs evs ≤ 2)%nat
  ∧ (count KClose evs ≤ 2)%nat.
Proof.
  destruct (main ret0 argc argv (init w)) as [r s'] eqn:Hmain. simpl.
  apply main_sound in Hmain.
  generalize dependent (log s'). intros evs Hmain.
  inversion Hmain; subst; try (split_and!; counted);
    repeat match goal with
    | T : open_dest_trace _ _ _ ?od |- _ =>
        assert (count KIoctl od = 0%nat) by count_zero;
        assert (count KUnlink od = 0%nat) by count_zero;
        assert (count KFstatfs od = 0%nat) by count_zero;
        assert (count KClose od = 0%nat) by count_zero;
        apply open_dest_counts in T as [? ?]
    | T : check_trace _ _ _ ?ck |- _ =>
        assert (count KStat ck = 0%nat) by count_zero;
        assert (count KIoctl ck = 0%nat) by count_zero;
        assert (count KUnlink ck = 0%nat) by count_zero;
        assert (count KOpen ck = 0%nat) by count_zero;
        assert (count KClose ck = 0%nat) by count_zero;
        apply check_counts in T
    | T : clone_trace _ _ _ ?cn |- _ =>
        assert (count KStat cn = 0%nat) by count_zero;
        assert (count KUnlink cn = 0%nat) by count_zero;
        assert (count KOpen cn = 0%nat) by count_zero;
        assert (count KFstatfs cn = 0%nat) by count_zero;
        assert (count KClose cn = 0%nat) by count_zero;
        apply clone_counts in T
    | T : close_trace _ _ _ _ ?cl |- _ =>
        assert (count KStat cl = 0%nat) by count_zero;
        assert (count KIoctl cl = 0%nat) by count_zero;
        assert (count KUnlink cl = 0%nat) by count_zero;
        assert (count KOpen cl = 0%nat) by count_zero;
        assert (count KFstatfs cl = 0%nat) by count_zero;
        apply close_counts in T
    | T : closes_trace _ _ _ _ ?cl |- _ =>
        assert (count KStat cl = 0%nat) by count_zero;
        assert (count KIoctl cl = 0%nat) by count_zero;
        assert (count KUnlink cl = 0%nat) by count_zero;
        assert (count KOpen cl = 0%nat) by count_zero;
        assert (count KFstatfs cl = 0%nat) by count_zero;
        apply closes_counts in T
    end;
    split_and!; count_parts; simpl; try lia.
Qed.

Lemma opened_fds_app evs1 evs2 :
  opened_fds (evs1 ++ evs2) = opened_fds evs1 ++ opened_fds evs2.
Proof. apply omap_app. Qed.

Lemma closed_fds_app evs1 evs2 :
  closed_fds (evs1 ++ evs2) = closed_fds evs1 ++ closed_fds evs2.
Proof. apply omap_app. Qed.

Lemma open_dest_fds src dst r evs :
  open_dest_trace src dst r evs →
  closed_fds evs = []
  ∧ opened_fds evs =
      match r with
      | Some (ret, _) => if ret =? -1 then [] else [ret]
      | None => []
      end.
Proof.
  destruct 1; split; try reflexivity;
    destruct (Z.of_N fd =? -1) eqn:Efd; bools; first [lia | reflexivity].
Qed.

Lemma check_fds src_fd dest_fd b evs :
  check_trace src_fd dest_fd b evs → closed_fds evs = [] ∧ opened_fds evs = [].
Proof. by destruct 1. Qed.

Lemma clone_fds src_fd dst_fd ret evs :
  clone_trace src_fd dst_fd ret evs → closed_fds evs = [] ∧ opened_fds evs = [].
Proof. by destruct 1. Qed.

Lemma close_fds msg fd ret ret' evs :
  close_trace msg fd ret ret' evs → closed_fds evs = [fd] ∧ opened_fds evs = [].
Proof. by destruct 1. Qed.

Lemma closes_fds src_fd dst_fd ret ret' evs :
  closes_trace src_fd dst_fd ret ret' evs →
  closed_fds evs = [dst_fd; src_fd] ∧ opened_fds evs = [].
Proof.
  destruct 1 as [ret' ret'' d c Hd Hc].
  apply close_fds in Hd as [Hd1 Hd2]. apply close_fds in Hc as [Hc1 Hc2].
  by rewrite closed_fds_app, opened_fds_app, Hd1, Hd2, Hc1, Hc2.
Qed.

(** X6: in every run of [main] that returns, the descriptors are closed in
    the reverse order of their opening, each one once: [close] is called on
    exactly the descriptors that the successful opens returned, whether or
    not a later step failed.  A run killed by [abort()] closes nothing. *)
Theorem descriptors_closed_in_reverse ret0 argc argv w r s' :
  main ret0 argc argv (init w) = (r, s') →
  (is_Some r → closed_fds (log s') = reverse (opened_fds (log s')))
  ∧ (r = None → closed_fds (log s') = []).
Proof.
  intros Hmain%main_sound.
  generalize dependent (log s'). intros evs Hmain.
  inversion Hmain; subst; (split; [intros [v Hv] | intros Hv]); try done;
    change (?ev :: ?l) with ([ev] ++ l);
    repeat match goal with
    | T : open_dest_trace _ _ _ _ |- _ => apply open_dest_fds in T as [? ?]
    | T : check_trace _ _ _ _ |- _ => apply check_fds in T as [? ?]
    | T : clone_trace _ _ _ _ |- _ => apply clone_fds in T as [? ?]
    | T : close_trace _ _ _ _ _ |- _ => apply close_fds in T as [? ?]
    | T : closes_trace _ _ _ _ _ |- _ => apply closes_fds in T as [? ?]
    end;
    rewrite ?closed_fds_app, ?opened_fds_app;
    repeat match goal with
    | E : closed_fds _ = _ |- _ => rewrite E; clear E
    | E : opened_fds _ = _ |- _ => rewrite E; clear E
    end;
    simpl;
    try match goal with
    | Hne : ?fd ≠ -1 |- _ => apply Z.eqb_neq in Hne; rewrite Hne
    end;
    done.
Qed.

(** Splits [H : never k evs] along the parts of [evs]. *)
Ltac split_never H :=
  unfold out_of_memory in H;
  repeat (rewrite never_app in H || rewrite never_cons in H);
  destruct_and? H.

Lemma open_dest_trace_silent src dst r evs :
  open_dest_trace src dst r evs →
  never KStderr evs ↔ ∃ ret src_file, r = Some (ret, src_file) ∧ ret ≠ -1.
Proof.
  destruct 1; (split; [intros Hs; split_and? | intros (ret & sf & [= <- <-] & Hret)]);
    try (split_never Hs; done); try done;
    try (do 2 eexists; split; [done | lia]);
    by repeat constructor.
Qed.

Lemma check_trace_silent src_fd dest_fd b evs :
  check_trace src_fd dest_fd b evs → never KStderr evs ↔ b = true.
Proof.
  destruct 1; (split; [intros Hs | intros Hb]);
    try (split_never Hs; done); try done; by repeat constructor.
Qed.

Lemma clone_trace_silent src_fd dst_fd ret evs :
  clone_trace src_fd dst_fd ret evs → never KStderr evs ↔ ret = 0.
Proof.
  destruct 1; (split; [intros Hs | intros Hb]);
    try (split_never Hs; done); try done; by repeat constructor.
Qed.

Lemma close_trace_silent msg fd ret ret' evs :
  close_trace msg fd ret ret' evs →
  never KStderr evs ↔ ∀ fd' e, EvSys (SysClose fd') (Err e) ∉ evs.
Proof.
  destruct 1; (split; [intros Hs | intros Hb]).
  - intros fd' e Hin. locate Hin.
  - by repeat constructor.
  - split_never Hs. done.
  - destruct (Hb fd e). apply list_elem_of_here.
Qed.

Lemma closes_trace_silent src_fd dst_fd ret ret' evs :
  closes_trace src_fd dst_fd ret ret' evs →
  never KStderr evs ↔ ∀ fd e, EvSys (SysClose fd) (Err e) ∉ evs.
Proof.
  destruct 1 as [ret' ret'' d c Hd Hc].
  rewrite never_app, (close_trace_silent _ _ _ _ _ Hd), (close_trace_silent _ _ _ _ _ Hc).
  split.
  - intros [Hd' Hc'] fd e [Hin|Hin]%elem_of_app; [by eapply Hd' | by eapply Hc'].
  - intros Hno. split; intros fd e Hin; apply (Hno fd e), elem_of_app; auto.
Qed.

Lemma closes_trace_silent_ret src_fd dst_fd ret ret' evs :
  closes_trace src_fd dst_fd ret ret' evs → never KStderr evs → ret' = ret.
Proof.
  intros T Hs. destruct (closes_trace_ret _ _ _ _ _ T) as [[-> _]|[_ (fd & e & Hin)]]; [done|].
  destruct (closes_trace_silent _ _ _ _ _ T) as [Hf _].
  destruct (Hf Hs fd e Hin).
Qed.

(** X7: every failure is reported.  A run of [main] writes nothing to
    standard error exactly when it unlinked the source and no close failed;
    such a run returns 0, whatever [ret] held at the start. *)
Theorem silent_iff_moved ret0 argc argv w r s' :
  main ret0 argc argv (init w) = (r, s') →
  (never KStderr (log s')
   ↔ (∃ path, EvSys (SysUnlink path) (Ok 0) ∈ log s')
     ∧ ∀ fd e, EvSys (SysClose fd) (Err e) ∉ log s')
  ∧ (never KStderr (log s') → r = Some 0).
Proof.
  intros Hmain%main_sound.
  generalize dependent (log s'). intros evs Hmain.
  assert (never KStderr evs →
          r = Some 0
          ∧ (∃ path, EvSys (SysUnlink path) (Ok 0) ∈ evs)
          ∧ ∀ fd e, EvSys (SysClose fd) (Err e) ∉ evs) as Hsilent.
  { intros Hs. inversion Hmain; subst; split_never Hs; try done;
      repeat match goal with
      | T : open_dest_trace _ _ _ ?od, Hn : never KStderr ?od |- _ =>
          apply (open_dest_trace_silent _ _ _ _ T) in Hn as (? & ? & [= <- <-] & ?)
      | T : open_dest_trace _ _ None ?od, Hn : never KStderr ?od |- _ =>
          apply (open_dest_trace_silent _ _ _ _ T) in Hn as (? & ? & [=] & ?)
      | T : check_trace _ _ _ ?ck, Hn : never KStderr ?ck |- _ =>
          apply (check_trace_silent _ _ _ _ T) in Hn
      | T : clone_trace _ _ _ ?cn, Hn : never KStderr ?cn |- _ =>
          apply (clone_trace_silent _ _ _ _ T) in Hn
      end; try done.
    match goal with
    | T : closes_trace _ _ 0 _ ?cl, Hn : never KStderr ?cl |- _ =>
        pose proof (closes_trace_silent_ret _ _ _ _ _ T Hn) as ->;
        destruct (closes_trace_silent _ _ _ _ _ T) as [Hclosed _];
        specialize (Hclosed Hn)
    end.
    split_and!; [done | |].
    - eexists. repeat (rewrite elem_of_cons || rewrite elem_of_app). eauto 10.
    - intros fd e Hin. locate Hin. by eapply Hclosed. }
  split; [split|]; [tauto | | tauto].
  intros [(path & Hin) Hno].
  inversion Hmain; subst; locate Hin.
  repeat match goal with
  | T : open_dest_trace _ _ _ ?od |- _ =>
      apply open_dest_trace_silent in T; destruct T as [_ T]
  | T : check_trace _ _ _ ?ck |- _ =>
      apply check_trace_silent in T; destruct T as [_ T]
  | T : clone_trace _ _ _ ?cn |- _ =>
      apply clone_trace_silent in T; destruct T as [_ T]
  | T : closes_trace _ _ _ _ ?cl |- _ =>
      apply closes_trace_silent in T; destruct T as [_ T]
  end.
  repeat (rewrite never_cons || rewrite never_app).
  split_and!; eauto; try done.
  - apply never_nil.
  - match goal with
    | T : _ → never KStderr ?cl |- never KStderr ?cl => apply T
    end.
    intros fd e Hc. apply (Hno fd e).
    repeat (rewrite elem_of_cons || rewrite elem_of_app). auto 10.
Qed.

(** X8: the value [main] returns is 0 or 1, except on the two paths that
    leave [ret] unassigned, the usage error and the failed unlink, where it
    is whatever [ret] held at the start. *)
Theorem exit_status_values ret0 argc argv w v s' :
  main ret0 argc argv (init w) = (Some v, s') →
  v = 0 ∨ v = 1
  ∨ (v = ret0 ∧ (argc ≠ 3 ∨ ∃ path e, EvSys (SysUnlink path) (Err e) ∈ log s')).
Proof.
  intros Hmain%main_sound.
  generalize dependent (log s'). intros evs Hmain.
  inversion Hmain; subst;
    repeat match goal with
    | T : close_trace _ _ 1 _ _ |- _ => apply close_trace_one in T as ->
    | T : closes_trace _ _ 1 _ _ |- _ => apply closes_trace_one in T as ->
    | T : closes_trace _ _ _ _ _ |- _ =>
        apply closes_trace_ret in T as [[-> _]|[-> _]]
    end; auto.
  do 2 right. split; [done|]. right. do 2 eexists.
  repeat (rewrite elem_of_cons || rewrite elem_of_app). eauto 10.
Qed.

Lemma open_dest_trace_oom src dst r evs :
  open_dest_trace src dst r evs → out_of_memory ∈ evs ↔ r = None.
Proof.
  unfold out_of_memory.
  destruct 1; (split; [intros Hin | intros Hr]); try done;
    try (locate Hin; simpl in *; done).
  apply list_elem_of_further, list_elem_of_here.
Qed.

Lemma check_trace_no_oom src_fd dest_fd b evs :
  check_trace src_fd dest_fd b evs → out_of_memory ∉ evs.
Proof. unfold out_of_memory. destruct 1; intros Hin; locate Hin; simpl in *; done. Qed.

Lemma clone_trace_no_oom src_fd dst_fd ret evs :
  clone_trace src_fd dst_fd ret evs → out_of_memory ∉ evs.
Proof. unfold out_of_memory. destruct 1; intros Hin; locate Hin; simpl in *; done. Qed.

Lemma close_trace_no_oom fd ret ret' evs :
  close_trace "failed to close src file: " fd ret ret' evs → out_of_memory ∉ evs.
Proof. unfold out_of_memory. destruct 1; intros Hin; locate Hin; simpl in *; done. Qed.

Lemma closes_trace_no_oom src_fd dst_fd ret ret' evs :
  closes_trace src_fd dst_fd ret ret' evs → out_of_memory ∉ evs.
Proof.
  unfold out_of_memory.
  destruct 1 as [ret' ret'' d c Hd Hc]; destruct Hd, Hc; intros Hin; locate Hin;
    simpl in *; done.
Qed.

(** X9: [main] is killed by [abort()] exactly when "out of memory!" was
    printed, and that message is then the last thing the process did.  Such
    a run has made no ioctl and no unlink, has opened nothing but the
    source, so no destination file was created, and has closed nothing. *)
Theorem out_of_memory_aborts ret0 argc argv w r s' :
  main ret0 argc argv (init w) = (r, s') →
  (r = None ↔ out_of_memory ∈ log s')
  ∧ (r = None →
     last (log s') = Some out_of_memory
     ∧ never KIoctl (log s') ∧ never KUnlink (log s') ∧ never KClose (log s')
     ∧ ∀ ev, ev ∈ log s' → kind_of ev = KOpen →
         ∃ fd, ev = EvSys (SysOpen (arg argv 1) O_RDWR None) (Ok fd)).
Proof.
  intros Hmain%main_sound.
  generalize dependent (log s'). intros evs Hmain.
  split; [split|].
  - intros ->. inversion Hmain; subst.
    + apply list_elem_of_here.
    + apply list_elem_of_further.
      match goal with
      | T : open_dest_trace _ _ None _ |- _ => by apply (open_dest_trace_oom _ _ _ _ T)
      end.
  - intros Hin.
    inversion Hmain; subst; try done; exfalso;
      repeat (apply elem_of_cons in Hin as [Hin|Hin];
              [unfold out_of_memory in Hin; simpl in Hin; done|]);
      repeat match type of Hin with
      | _ ∈ [] => by apply elem_of_nil in Hin
      | _ ∈ _ :: _ =>
          apply elem_of_cons in Hin as [Hin|Hin];
          [unfold out_of_memory in Hin; simpl in Hin; done|]
      | _ ∈ ?l ++ _ =>
          apply elem_of_app in Hin as [Hin|Hin];
          [ match goal with
            | T : open_dest_trace _ _ _ l |- _ =>
                by apply (open_dest_trace_oom _ _ _ _ T) in Hin
            | T : check_trace _ _ _ l |- _ => by apply (check_trace_no_oom _ _ _ _ T) in Hin
            | T : clone_trace _ _ _ l |- _ => by apply (clone_trace_no_oom _ _ _ _ T) in Hin
            | _ => idtac
            end |]
      | _ ∈ ?l =>
          match goal with
          | T : close_trace _ _ _ _ l |- _ => by apply (close_trace_no_oom _ _ _ _ T) in Hin
          | T : closes_trace _ _ _ _ l |- _ =>
              by apply (closes_trace_no_oom _ _ _ _ _ T) in Hin
          end
      end.
  - intros ->. inversion Hmain; subst.
    + split_and!; [done | by repeat constructor.. |].
      intros ev Hev Hk. locate Hev.
    + match goal with
      | T : open_dest_trace _ _ None _ |- _ => inversion T; subst
      end.
      split_and!; [done | by repeat constructor.. |].
      intros ev Hev Hk. locate Hev; eauto.
Qed.

(** Membership in a log made of traces, for an event that is in sight. *)
Ltac in_log := repeat (rewrite elem_of_cons || rewrite elem_of_app); eauto 12.

(** X10: the path [main] unlinks is the text the source buffer holds after
    [open_dest]: the first argument itself when the destination did not
    exist, and the first argument as [basename] left it when the destination
    is a directory.  No other path is ever unlinked. *)
Theorem unlinked_path ret0 argc argv w r s' path res :
  main ret0 argc argv (init w) = (r, s') →
  EvSys (SysUnlink path) res ∈ log s' →
  (path = arg argv 1 ∧ EvSys (SysStat (arg argv 2)) (Err ENOENT) ∈ log s')
  ∨ (path = (basename (arg argv 1)).2
     ∧ ∃ st_mode,
         EvSys (SysStat (arg argv 2)) (Ok st_mode) ∈ log s'
         ∧ Z.land st_mode S_IFMT = S_IFDIR).
Proof.
  intros Hmain%main_sound Hin.
  generalize dependent (log s'). intros evs Hmain Hin.
  inversion Hmain; subst; locate Hin;
    match goal with
    | T : open_dest_trace _ _ (Some (?dst_fd, _)) _, Hne : ?dst_fd ≠ -1 |- _ =>
        inversion T; subst; try done
    end;
    first [ left; split; [done | in_log] | right; split; [done | eexists; split; [in_log | done]] ].
Qed.

(** X11: moving a file into the directory that already holds it is not
    detected.  When the destination is a directory and [dst/basename(src)]
    spells the source path, the path [main] unlinks is the very path
    [open_dest] opened as the destination: whenever such a run gets as far
    as the unlink, the file removed is the one the clone was written to. *)
Theorem move_into_own_directory ret0 argc argv w r s' path res st_mode :
  main ret0 argc argv (init w) = (r, s') →
  EvSys (SysUnlink path) res ∈ log s' →
  EvSys (SysStat (arg argv 2)) (Ok st_mode) ∈ log s' →
  arg argv 2 +:+ "/" +:+ (basename (arg argv 1)).1 = (basename (arg argv 1)).2 →
  ∃ fd, EvSys (SysOpen path (Z.lor O_CREAT O_WRONLY) (Some 420)) (Ok fd) ∈ log s'.
Proof.
  intros Hmain%main_sound Hin Hstat Hsame.
  generalize dependent (log s'). intros evs Hmain Hin Hstat.
  inversion Hmain; subst; locate Hin;
    match goal with
    | T : open_dest_trace _ _ (Some (?dst_fd, _)) _, Hne : ?dst_fd ≠ -1 |- _ =>
        inversion T; subst; try done
    end;
    locate Hstat; rewrite <- Hsame; eexists; in_log.
Qed.

(** X12: the clone is requested only on validated descriptors.  Every ioctl
    [main] makes is the copy-chunk request, on the descriptor the
    destination open returned, with the descriptor the source open returned
    as its argument, and [fstatfs] has answered an accepted type for both. *)
Theorem clone_only_after_validation ret0 argc argv w r s' fd request a res :
  main ret0 argc argv (init w) = (r, s') →
  EvSys (SysIoctl fd request a) res ∈ log s' →
  request = CIFS_IOC_COPYCHUNK_FILE
  ∧ opened_fds (log s') = [a; fd]
  ∧ ∃ t t',
      EvSys (SysFstatfs a) (Ok t) ∈ log s' ∧ accepted t
      ∧ EvSys (SysFstatfs fd) (Ok t') ∈ log s' ∧ accepted t'.
Proof.
  intros Hmain%main_sound Hin.
  generalize dependent (log s'). intros evs Hmain Hin.
  inversion Hmain; subst; locate Hin;
    match goal with
    | Tck : check_trace _ _ true _, Tcn : clone_trace _ _ _ _ |- _ =>
        inversion Tck; subst; inversion Tcn; subst
    end;
    locate Hin;
    (split_and!;
     [ done
     | change (?ev :: ?l) with ([ev] ++ l);
       repeat match goal with
       | T : open_dest_trace _ _ _ _ |- _ => apply open_dest_fds in T as [_ T]
       | T : closes_trace _ _ _ _ _ |- _ => apply closes_fds in T as [_ T]
       end;
       rewrite ?opened_fds_app;
       repeat match goal with
       | E : opened_fds _ = _ |- _ => rewrite E; clear E
       end;
       match goal with
       | Hne : ?d ≠ -1 |- _ => apply Z.eqb_neq in Hne; rewrite Hne
       end;
       done
     | do 2 eexists; split_and!;
       [ in_log | by apply is_cifs_type_accepted | in_log | by apply is_cifs_type_accepted ] ]).
Qed.

(** X13: [check_is_cifs] only asks: it never aborts, its first event is the
    [fstatfs] of the source descriptor, it makes at most two system calls,
    both [fstatfs], and when it returns true it has printed nothing and has
    left [errno] as it was. *)
Theorem check_is_cifs_calls src_fd dest_fd s :
  ∃ b s' res rest,
    check_is_cifs src_fd dest_fd s = (Some b, s')
    ∧ log s' = log s ++ EvSys (SysFstatfs src_fd) res :: rest
    ∧ only [KFstatfs; KStderr] rest
    ∧ (count KFstatfs rest ≤ 1)%nat
    ∧ (b = true → never KStderr rest ∧ errno s' = errno s).
Proof.
  destruct (check_is_cifs src_fd dest_fd s) as [r s'] eqn:Hrun.
  revert Hrun. paths; bools; try lia;
    do 4 eexists;
    (split_and!; [done | by rewrite <- ?app_assoc | kinds | counted | ]);
    first [ done | intros _; split; [by repeat constructor | done] ].
Qed.

(** X14: a run of [main] that makes any system call at all begins with the
    open of its first argument with [O_RDWR]: nothing is printed before it,
    and no other call, on the destination or otherwise, comes earlier. *)
Theorem main_opens_source_first ret0 argc argv w r s' ev :
  main ret0 argc argv (init w) = (r, s') →
  ev ∈ log s' →
  kind_of ev ≠ KStderr →
  ∃ res rest, log s' = EvSys (SysOpen (arg argv 1) O_RDWR None) res :: rest.
Proof.
  intros Hmain%main_sound Hin Hk.
  generalize dependent (log s'). intros evs Hmain Hin.
  inversion Hmain; subst; eauto; unfold out_of_memory in Hin; locate Hin.
Qed.

End Properties.

(** * The program on the reference kernel *)

Local Open Scope string_scope.
Local Open Scope list_scope.

Example basename_file : basename "/mnt/smb/a.txt" = ("a.txt", "/mnt/smb/a.txt").
Proof. reflexivity. Qed.

Example basename_trailing_slash : basename "dir/sub//" = ("sub", "dir/sub").
Proof. reflexivity. Qed.

Example basename_root : basename "//" = ("/", "//").
Proof. reflexivity. Qed.

Example copychunk_request : CIFS_IOC_COPYCHUNK_FILE = 0x4004CF03.
Proof. reflexivity. Qed.

(** The reference kernel opens no existing file for writing that lacks the
    owner's write permission. *)
Lemma ref_open_unwritable (w : Ref.world) path flags nd :
  Ref.fault (Ref.faults w) (SysOpen path flags None) = None →
  Ref.files w !! path = Some nd →
  Ref.wants_write flags = true →
  Z.land (Ref.n_mode nd) Ref.S_IWUSR = 0 →
  ∃ e, k_open path flags None w = (Err e, w).
Proof.
  intros Hfault Hfile Hwrite Hmode. simpl. unfold Ref.ref_open.
  rewrite Hfault, Hfile, Hwrite, Hmode. simpl.
  rewrite andb_true_r. destruct (Ref.is_dir nd); eauto.
Qed.

(** C9 (the code departs from it): a failing close does force the return
    value 1 ([close_failure_forces_one]), but 0 is not reserved for full
    success.  On the reference kernel, with the unlink of the source denied
    and [ret] holding 0 when [main] starts, the clone succeeds, the unlink
    fails, both closes succeed, and [main] returns 0 with the source still
    in place. *)
Theorem exit_zero_although_unlink_failed :
  ∃ s',
    main 0 3 Ref.argv_move (init Ref.unlink_denied) = (Some 0, s')
    ∧ EvSys (SysUnlink "/mnt/smb/a.txt") (Err Ref.EACCES) ∈ log s'
    ∧ (∀ fd e, EvSys (SysClose fd) (Err e) ∉ log s')
    ∧ Ref.n_data <$> Ref.files (world s') !! "/mnt/smb/a.txt" = Some "hello"
    ∧ Ref.n_data <$> Ref.files (world s') !! "/mnt/smb/c.txt" = Some "hello".
Proof.
  exists Ref.run_unlink_denied.2. split_and!.
  - by vm_compute.
  - cbn [log snd Ref.run_unlink_denied].
    do 6 apply list_elem_of_further. apply list_elem_of_here.
  - intros fd e Hin. cbn [log snd Ref.run_unlink_denied] in Hin.
    repeat (apply elem_of_cons in Hin as [Hin|Hin]; [discriminate Hin|]).
    by apply elem_of_nil in Hin.
  - by vm_compute.
  - by vm_compute.
Qed.

(** A move within the share: one unlink, made right after the clone. *)
Lemma unlink_only_after_clone_witness :
  main 0 3 Ref.argv_move (init Ref.share) = (Ref.run_move.1, Ref.run_move.2)
  ∧ (length (filter (λ ev, kind_of ev = KUnlink) (log Ref.run_move.2)) ≤ 1)%nat
  ∧ ∃ pre post,
      log Ref.run_move.2 = pre ++ EvSys (SysUnlink "/mnt/smb/a.txt") (Ok 0) :: post
      ∧ cloned_before Ref.argv_move Ref.share "/mnt/smb/a.txt" pre.
Proof.
  assert (main 0 3 Ref.argv_move (init Ref.share) = (Ref.run_move.1, Ref.run_move.2))
    as Hrun by (vm_compute; reflexivity).
  destruct (unlink_only_after_clone 0 3 Ref.argv_move Ref.share _ _ Hrun)
    as (Hcount & Hchain & _).
  split_and!; [exact Hrun | exact Hcount |].
  destruct (Hchain (take 6 (log Ref.run_move.2))
              (EvSys (SysUnlink "/mnt/smb/a.txt") (Ok 0))
              (drop 7 (log Ref.run_move.2)) eq_refl eq_refl)
    as (src_file & res & Hev & Hcb).
  injection Hev as <- <-.
  exists (take 6 (log Ref.run_move.2)), (drop 7 (log Ref.run_move.2)).
  split; [reflexivity | exact Hcb].
Defined.

(** The destination [b.txt] exists: refused. *)
Lemma refuses_to_overwrite_witness :
  open_dest "/mnt/smb/a.txt" "/mnt/smb/b.txt" (init Ref.share) =
    (Some (-1, "/mnt/smb/a.txt"),
     State Ref.share 0
       [EvSys (SysStat "/mnt/smb/b.txt") (Ok 0x81A4);
        EvStderr ("refusing to overwrite /mnt/smb/b.txt" +:+ LF)])
  ∧ Ref.run_overwrite.1 = Some 1
  ∧ never KIoctl (log Ref.run_overwrite.2).
Proof.
  destruct (refuses_to_overwrite (W := Ref.world)) as [Hdest Hmain].
  split.
  - apply (Hdest "/mnt/smb/a.txt" "/mnt/smb/b.txt" (init Ref.share) 0x81A4 Ref.share).
    + vm_compute. reflexivity.
    + vm_compute. discriminate.
  - assert (main 0 3 Ref.argv_overwrite (init Ref.share)
            = (Ref.run_overwrite.1, Ref.run_overwrite.2)) as Hrun
      by (vm_compute; reflexivity).
    destruct (Hmain 0 3 Ref.argv_overwrite Ref.share _ _ "/mnt/smb/b.txt" 0x81A4 Hrun)
      as (Hr & _ & _ & Hio & _).
    + cbn [log snd Ref.run_overwrite].
      apply list_elem_of_further, list_elem_of_here.
    + vm_compute. discriminate.
    + by split.
Defined.

Lemma run_local_fstatfs :
  EvSys (SysFstatfs 4) (Ok Ref.EXT4_SUPER_MAGIC) ∈ log Ref.run_local.2.
Proof.
  cbn [log snd Ref.run_local]. do 4 apply list_elem_of_further. apply list_elem_of_here.
Defined.

Lemma ext4_not_accepted : ¬ accepted Ref.EXT4_SUPER_MAGIC.
Proof. intros [Ht|Ht]; vm_compute in Ht; discriminate Ht. Defined.

(** The destination is on ext4: [main] stops at the check. *)
Lemma unsupported_fs_stops_before_clone_witness :
  EvSys (SysFstatfs 4) (Ok Ref.EXT4_SUPER_MAGIC) ∈ log Ref.run_local.2
  ∧ ¬ accepted Ref.EXT4_SUPER_MAGIC
  ∧ Ref.run_local.1 = Some 1
  ∧ never KIoctl (log Ref.run_local.2)
  ∧ never KUnlink (log Ref.run_local.2).
Proof.
  split_and!; [exact run_local_fstatfs | exact ext4_not_accepted | ..];
    apply (unsupported_fs_stops_before_clone 0 3 Ref.argv_local Ref.share
             Ref.run_local.1 Ref.run_local.2 4 Ref.EXT4_SUPER_MAGIC);
    first [ by vm_compute | exact run_local_fstatfs | exact ext4_not_accepted ].
Defined.

(** C3 (as stated, refuted): moving [a.txt] from the share to a path on ext4
    that does not exist yet fails with status 1 at the file system check,
    but [open_dest] has created the destination by then, and the empty file
    stays on disk. *)
Lemma unsupported_destination_is_created :
  ¬ unsupported_leaves_disk 0 Ref.argv_local Ref.share
  ∧ Ref.files Ref.share !! "/home/u/c.txt" = None
  ∧ Ref.files (world Ref.run_local.2) !! "/home/u/c.txt"
    = Some (Ref.Node 0x81A4 "").
Proof.
  split_and!; [| by vm_compute..].
  intros Hclaim. destruct Hclaim as (_ & _ & _ & Hfiles).
  - exists 4, Ref.EXT4_SUPER_MAGIC. split.
    + exact run_local_fstatfs.
    + exact ext4_not_accepted.
  - apply (f_equal (λ m, m !! "/home/u/c.txt")) in Hfiles.
    vm_compute in Hfiles. discriminate Hfiles.
Qed.

(** The unlink is denied and [ret] started as 0: [main] returns 0. *)
Lemma unlink_failure_exit_status_witness :
  EvSys (SysUnlink "/mnt/smb/a.txt") (Err Ref.EACCES) ∈ log Ref.run_unlink_denied.2
  ∧ Ref.run_unlink_denied.1 = Some 0.
Proof.
  assert (EvSys (SysUnlink "/mnt/smb/a.txt") (Err Ref.EACCES)
          ∈ log Ref.run_unlink_denied.2) as Hin.
  { cbn [log snd Ref.run_unlink_denied].
    do 6 apply list_elem_of_further. apply list_elem_of_here. }
  split; [exact Hin|].
  destruct (unlink_failure_exit_status 0 3 Ref.argv_move Ref.unlink_denied
              Ref.run_unlink_denied.1 Ref.run_unlink_denied.2
              "/mnt/smb/a.txt" Ref.EACCES) as (_ & Hret & _).
  - vm_compute. reflexivity.
  - exact Hin.
  - apply Hret. intros fd e Hc. cbn [log snd Ref.run_unlink_denied] in Hc.
    repeat (apply elem_of_cons in Hc as [Hc|Hc]; [discriminate Hc|]).
    by apply elem_of_nil in Hc.
Defined.

(** No arguments at all, [ret] starting as 0: usage, and [main] returns 0. *)
Lemma usage_exit_status_witness :
  (1 : Z) ≠ 3
  ∧ main 0 1 ["smb2mv"] (init Ref.share) =
      (Some 0, State Ref.share 0 [EvStderr ("Usage: smb2mv SRC DST" +:+ LF)]).
Proof.
  split; [lia|].
  apply (usage_exit_status_is_unassigned (W := Ref.world) 0 1 ["smb2mv"] (init Ref.share)).
  lia.
Defined.

(** Both descriptors are on the share: accepted. *)
Lemma check_is_cifs_witness :
  ∃ s', check_is_cifs 3 4 (init Ref.two_open) = (Some true, s').
Proof.
  destruct (check_is_cifs_accepts_only_smb 3 4 (init Ref.two_open)
              (Ok CIFS_SUPER_MAGIC) Ref.two_open (Ok CIFS_SUPER_MAGIC) Ref.two_open)
    as (_ & _ & b & s' & Hrun & Hiff & _); [vm_compute; reflexivity..|].
  exists s'. rewrite Hrun.
  assert (b = true) as ->; [|reflexivity].
  apply Hiff. exists CIFS_SUPER_MAGIC, CIFS_SUPER_MAGIC.
  split_and!; [reflexivity | reflexivity | by left | by left].
Defined.

(** A destination that does not exist: created; creation denied; [stat]
    denied. *)
Lemma open_dest_creates_missing_witness :
  (∃ s', open_dest "/mnt/smb/a.txt" "/mnt/smb/c.txt" (init Ref.share)
         = (Some (3, "/mnt/smb/a.txt"), s'))
  ∧ (∃ s', open_dest "/mnt/smb/a.txt" "/mnt/smb/c.txt"
             (init (Ref.with_faults
                      [(SysOpen "/mnt/smb/c.txt" 65 (Some 420), Ref.EACCES)] Ref.share))
           = (Some (-1, "/mnt/smb/a.txt"), s')
           ∧ last (log s')
             = Some (EvStderr ("failed to create /mnt/smb/c.txt: Permission denied" +:+ LF)))
  ∧ (∃ s', open_dest "/mnt/smb/a.txt" "/mnt/smb/c.txt"
             (init (Ref.with_faults [(SysStat "/mnt/smb/c.txt", Ref.EACCES)] Ref.share))
           = (Some (-1, "/mnt/smb/a.txt"), s')
           ∧ last (log s')
             = Some (EvStderr ("failed to create /mnt/smb/c.txt: Permission denied" +:+ LF))).
Proof.
  split_and!.
  - destruct (open_dest_creates_missing "/mnt/smb/a.txt" "/mnt/smb/c.txt" (init Ref.share))
      as (Hcreated & _ & _).
    eexists.
    apply (Hcreated Ref.share 3%N
             (Ref.ref_open "/mnt/smb/c.txt" 65 (Some 420) Ref.share).2);
      vm_compute; reflexivity.
  - set (w := Ref.with_faults
                [(SysOpen "/mnt/smb/c.txt" 65 (Some 420), Ref.EACCES)] Ref.share).
    destruct (open_dest_creates_missing "/mnt/smb/a.txt" "/mnt/smb/c.txt" (init w))
      as (_ & Hdenied & _).
    eexists. split.
    + apply (Hdenied w Ref.EACCES w); vm_compute; reflexivity.
    + reflexivity.
  - set (w := Ref.with_faults [(SysStat "/mnt/smb/c.txt", Ref.EACCES)] Ref.share).
    destruct (open_dest_creates_missing "/mnt/smb/a.txt" "/mnt/smb/c.txt" (init w))
      as (_ & _ & Hstat).
    eexists. split.
    + apply (Hstat Ref.EACCES w); [vm_compute; reflexivity | vm_compute; discriminate].
    + reflexivity.
Defined.

(** A destination that is a directory: the file is opened inside it. *)
Lemma open_dest_into_directory_witness :
  ∃ s', open_dest "/mnt/smb/a.txt" "/mnt/smb/dir" (init Ref.share)
        = (Some (3, "/mnt/smb/a.txt"), s')
        ∧ last (log s')
          = Some (EvSys (SysOpen "/mnt/smb/dir/a.txt" 65 (Some 420)) (Ok 3)).
Proof.
  destruct (open_dest_into_directory "/mnt/smb/a.txt" "/mnt/smb/dir" (init Ref.share)
              0x41ED Ref.share Ref.share (Ok 3%N)
              (Ref.ref_open "/mnt/smb/dir/a.txt" 65 (Some 420) Ref.share).2)
    as (ret & s' & Hrun & _ & _ & -> & Hlog); [vm_compute; reflexivity..|].
  exists s'. split; [exact Hrun|]. rewrite Hlog. reflexivity.
Defined.

(** The source [ro.txt] may not be written: [main] stops at its open. *)
Lemma unwritable_source_fails_first_witness :
  main 0 3 Ref.argv_readonly (init Ref.share) =
    (Some 1,
     State Ref.share Ref.EACCES
       [EvSys (SysOpen "/mnt/smb/ro.txt" 2 None) (Err Ref.EACCES);
        EvStderr ("failed to open /mnt/smb/ro.txt: Permission denied" +:+ LF)]).
Proof.
  exact (@unwritable_source_fails_first Ref.linux Ref.world Ref.kernel
           0 Ref.argv_readonly Ref.share Ref.share
           Ref.share Ref.EACCES Ref.share
           ltac:(vm_compute; reflexivity) ltac:(vm_compute; reflexivity)
           ltac:(vm_compute; reflexivity)).
Defined.

(** * More runs on the reference kernel *)

Lemma run_move_eq :
  main 0 3 Ref.argv_move (init Ref.share) = (Ref.run_move.1, Ref.run_move.2).
Proof. vm_compute. reflexivity. Defined.

(** The clone of descriptor 3 into descriptor 4 on the share. *)
Lemma clone_file_cifs_single_request_witness :
  Ref.run_clone.1 = Some 0
  ∧ log Ref.run_clone.2 = [EvSys (SysIoctl 4 CIFS_IOC_COPYCHUNK_FILE 3) (Ok 0)].
Proof.
  destruct (clone_file_cifs_single_request 3 4 (init Ref.two_open)
              Ref.run_clone.1 Ref.run_clone.2)
    as (res & msgs & Hlog & Hok & _); [vm_compute; reflexivity|].
  cbn [log snd Ref.run_clone init app] in Hlog.
  injection Hlog as Hres Hmsgs.
  destruct (Hok (eq_sym Hres)) as [Hret _].
  split; [exact Hret | reflexivity].
Defined.

(** Descriptor 3 is on ext4: the destination is not asked. *)
Lemma check_is_cifs_source_first_witness :
  ∃ s' text,
    check_is_cifs 3 4 (init Ref.local_open) = (Some false, s')
    ∧ log s' = [EvSys (SysFstatfs 3) (Ok Ref.EXT4_SUPER_MAGIC); EvStderr text].
Proof.
  destruct (check_is_cifs_source_first 3 4 (init Ref.local_open)
              (Ok Ref.EXT4_SUPER_MAGIC) Ref.local_open)
    as (s' & text & Hrun & _ & Hlog).
  - vm_compute. reflexivity.
  - intros t [= <-] [Ht|Ht]; vm_compute in Ht; discriminate Ht.
  - by exists s', text.
Defined.

(** A missing destination: descriptor 3, nothing printed. *)
Lemma open_dest_outcome_witness :
  ∃ evs path,
    log Ref.run_dest_missing.2 = evs
    ∧ count KStderr evs = 0%nat
    ∧ last evs = Some (EvSys (SysOpen path (Z.lor O_CREAT O_WRONLY) (Some 420)) (Ok 3)).
Proof.
  destruct (open_dest_outcome "/mnt/smb/a.txt" "/mnt/smb/c.txt" (init Ref.share)
              3 "/mnt/smb/a.txt" Ref.run_dest_missing.2)
    as (evs & Hlog & [(Hret & _)|(_ & Hcount & path & Hlast)]);
    [vm_compute; reflexivity | discriminate Hret |].
  exists evs, path. split_and!; [exact Hlog | exact Hcount | exact Hlast].
Defined.

(** A directory as destination: one [stat], then one open inside it. *)
Lemma open_dest_calls_witness :
  ∃ res rest,
    log Ref.run_dest_dir.2 = EvSys (SysStat "/mnt/smb/dir") res :: rest
    ∧ (count KOpen rest ≤ 1)%nat.
Proof.
  destruct (open_dest_calls "/mnt/smb/a.txt" "/mnt/smb/dir" (init Ref.share)
              Ref.run_dest_dir.1 Ref.run_dest_dir.2)
    as (res & rest & Hlog & _ & Hcount & _); [vm_compute; reflexivity|].
  exists res, rest. split; [exact Hlog | exact Hcount].
Defined.

(** The move: descriptors 3 and 4 are opened, 4 and 3 are closed. *)
Lemma descriptors_closed_in_reverse_witness :
  opened_fds (log Ref.run_move.2) = [3; 4]
  ∧ closed_fds (log Ref.run_move.2) = reverse (opened_fds (log Ref.run_move.2)).
Proof.
  split; [reflexivity|].
  apply (descriptors_closed_in_reverse 0 3 Ref.argv_move Ref.share
           Ref.run_move.1 Ref.run_move.2 run_move_eq).
  by exists 0.
Defined.

(** The move prints nothing and returns 0. *)
Lemma silent_iff_moved_witness :
  never KStderr (log Ref.run_move.2) ∧ Ref.run_move.1 = Some 0.
Proof.
  destruct (silent_iff_moved 0 3 Ref.argv_move Ref.share
              Ref.run_move.1 Ref.run_move.2 run_move_eq) as [Hiff Hret].
  assert (never KStderr (log Ref.run_move.2)) as Hs.
  { apply Hiff. split.
    - exists "/mnt/smb/a.txt". cbn [log snd Ref.run_move].
      do 6 apply list_elem_of_further. apply list_elem_of_here.
    - intros fd e Hin. cbn [log snd Ref.run_move] in Hin.
      repeat (apply elem_of_cons in Hin as [Hin|Hin]; [discriminate Hin|]).
      by apply elem_of_nil in Hin. }
  split; [exact Hs | exact (Hret Hs)].
Defined.

(** With the unlink denied and [ret] starting as 5, [main] returns 5. *)
Lemma exit_status_values_witness :
  Ref.run_unlink_denied_5.1 = Some 5
  ∧ ∃ path e, EvSys (SysUnlink path) (Err e) ∈ log Ref.run_unlink_denied_5.2.
Proof.
  split; [reflexivity|].
  destruct (exit_status_values 5 3 Ref.argv_move Ref.unlink_denied 5
              Ref.run_unlink_denied_5.2)
    as [H0|[H1|(_ & [Hargc|Hunlink])]];
    [vm_compute; reflexivity | discriminate H0 | discriminate H1 | done | exact Hunlink].
Defined.

(** Without memory the first [strdup] aborts the process. *)
Lemma out_of_memory_aborts_witness :
  Ref.run_no_memory.1 = None
  ∧ last (log Ref.run_no_memory.2) = Some out_of_memory
  ∧ never KUnlink (log Ref.run_no_memory.2).
Proof.
  destruct (out_of_memory_aborts 0 3 Ref.argv_move Ref.no_memory
              Ref.run_no_memory.1 Ref.run_no_memory.2)
    as [_ Habort]; [vm_compute; reflexivity|].
  destruct (Habort eq_refl) as (Hlast & _ & Hunlink & _).
  split_and!; [reflexivity | exact Hlast | exact Hunlink].
Defined.

(** The move unlinks its first argument. *)
Lemma unlinked_path_witness :
  EvSys (SysUnlink "/mnt/smb/a.txt") (Ok 0) ∈ log Ref.run_move.2
  ∧ EvSys (SysStat "/mnt/smb/c.txt") (Err ENOENT) ∈ log Ref.run_move.2.
Proof.
  assert (EvSys (SysUnlink "/mnt/smb/a.txt") (Ok 0) ∈ log Ref.run_move.2) as Hin.
  { cbn [log snd Ref.run_move]. do 6 apply list_elem_of_further. apply list_elem_of_here. }
  split; [exact Hin|].
  destruct (unlinked_path 0 3 Ref.argv_move Ref.share Ref.run_move.1 Ref.run_move.2
              "/mnt/smb/a.txt" (Ok 0) run_move_eq Hin)
    as [[_ Hstat]|[_ (st_mode & Hstat & _)]]; [exact Hstat|].
  cbn [log snd Ref.run_move] in Hstat.
  repeat (apply elem_of_cons in Hstat as [Hstat|Hstat]; [discriminate Hstat|]).
  by apply elem_of_nil in Hstat.
Defined.

(** [/mnt/smb/dir/a.txt] moved to [/mnt/smb/dir]: the path opened as the
    destination is unlinked, and on the reference kernel the file is gone. *)
Lemma move_into_own_directory_witness :
  (∃ fd, EvSys (SysOpen "/mnt/smb/dir/a.txt" (Z.lor O_CREAT O_WRONLY) (Some 420)) (Ok fd)
         ∈ log Ref.run_own_dir.2)
  ∧ EvSys (SysUnlink "/mnt/smb/dir/a.txt") (Ok 0) ∈ log Ref.run_own_dir.2
  ∧ Ref.files (world Ref.run_own_dir.2) !! "/mnt/smb/dir/a.txt" = None.
Proof.
  assert (EvSys (SysUnlink "/mnt/smb/dir/a.txt") (Ok 0) ∈ log Ref.run_own_dir.2) as Hin.
  { cbn [log snd Ref.run_own_dir]. do 6 apply list_elem_of_further. apply list_elem_of_here. }
  split_and!; [| exact Hin | by vm_compute].
  apply (move_into_own_directory 0 3 Ref.argv_own_dir Ref.nested
           Ref.run_own_dir.1 Ref.run_own_dir.2 "/mnt/smb/dir/a.txt" (Ok 0) 0x41ED).
  - vm_compute. reflexivity.
  - exact Hin.
  - cbn [log snd Ref.run_own_dir]. apply list_elem_of_further, list_elem_of_here.
  - reflexivity.
Defined.

(** The move clones descriptor 3 into descriptor 4, both validated. *)
Lemma clone_only_after_validation_witness :
  opened_fds (log Ref.run_move.2) = [3; 4]
  ∧ ∃ t, EvSys (SysFstatfs 4) (Ok t) ∈ log Ref.run_move.2 ∧ accepted t.
Proof.
  destruct (clone_only_after_validation 0 3 Ref.argv_move Ref.share
              Ref.run_move.1 Ref.run_move.2 4 CIFS_IOC_COPYCHUNK_FILE 3 (Ok 0) run_move_eq)
    as (_ & Hfds & t & t' & _ & _ & Hdst & Ht').
  - cbn [log snd Ref.run_move]. do 5 apply list_elem_of_further. apply list_elem_of_here.
  - split; [exact Hfds | by exists t'].
Defined.

(** The move makes system calls, and the first is the open of its first
    argument. *)
Lemma main_opens_source_first_witness :
  ∃ res rest, log Ref.run_move.2 = EvSys (SysOpen "/mnt/smb/a.txt" 2 None) res :: rest.
Proof.
  apply (main_opens_source_first 0 3 Ref.argv_move Ref.share
           Ref.run_move.1 Ref.run_move.2
           (EvSys (SysUnlink "/mnt/smb/a.txt") (Ok 0)) run_move_eq).
  - cbn [log snd Ref.run_move]. do 6 apply list_elem_of_further. apply list_elem_of_here.
  - discriminate.
Defined.

(** The close of the destination fails after a complete move: 1. *)
Lemma close_failure_forces_one_witness :
  EvSys (SysUnlink "/mnt/smb/a.txt") (Ok 0) ∈ log Ref.run_close_fails.2
  ∧ Ref.run_close_fails.1 = Some 1.
Proof.
  split.
  - cbn [log snd Ref.run_close_fails].
    do 6 apply list_elem_of_further. apply list_elem_of_here.
  - apply (close_failure_forces_one 0 3 Ref.argv_move Ref.close_fails
             Ref.run_close_fails.1 Ref.run_close_fails.2 4 Ref.EIO).
    + vm_compute. reflexivity.
    + cbn [log snd Ref.run_close_fails].
      do 7 apply list_elem_of_further. apply list_elem_of_here.
Defined.

(** With [ret] starting as 7 the move still returns 0, silently. *)
Lemma exit_zero_when_initialised_witness :
  Ref.run_move_7.1 = Some 0 ∧ never KStderr (log Ref.run_move_7.2).
Proof.
  split; [reflexivity|].
  apply (exit_zero_when_initialised 7 3 Ref.argv_move Ref.share Ref.run_move_7.2).
  - discriminate.
  - vm_compute. reflexivity.
Defined.
